(** * pkg/stanza/fileconsumer: the reader factory

    A shallow embedding of [reader_factory.go]: the [readerFactory], its
    fluent [readerBuilder] and [readerBuilder.build], with the three entry
    points [newReader], [copy] and [unsafeReader].

    Go values that are shared by reference ([*fingerprint.Fingerprint],
    [map[string]any]) live in an explicit store and are passed around as
    locations, so that aliasing is visible.  Calls into the operating system
    and into other packages are recorded in an event trace.  A Go function
    returning [(x, err)] is a computation in the monad [M], whose outcome is
    [Ok x], [Err err] or a [Panic]. *)

From Stdlib Require Import ZArith Strings.Byte Strings.Ascii.
From stdpp Require Import base option gmap strings list sorting.

Local Open Scope string_scope.
Local Open Scope list_scope.
Local Open Scope Z_scope.

(** ** Go values *)

(** Go's [error]: a message, or [fmt.Errorf("<prefix>%w", cause)]. *)
Inductive error : Type :=
| errorString (msg : string)
| errorWrap (prefix : string) (cause : error).

(** The dynamic values of type [any] stored as attribute values. *)
Inductive any : Type :=
| anyNil
| anyString (s : string)
| anyInt (z : Z)
| anyBool (b : bool).

Global Instance any_eq_dec : EqDecision any.
Proof. solve_decision. Defined.

(** Store locations; [None] is the nil pointer, respectively the nil map. *)
Definition loc := positive.

(** [bufio.SplitFunc]; [None] is the nil function value. *)
Definition bufio_SplitFunc : Type :=
  option (list byte → bool → Z * option (list byte) * option error).

(** Modelled from the spec: the type of the downstream [emit] callback held by
    [readerConfig] (declared outside this file): it receives the record bytes
    and the attribute mapping and reports success or failure.  [None] is the
    nil function value. *)
Definition EmitFunc : Type :=
  option (list byte → gmap string any → bool).

(** [*zap.SugaredLogger]: the structured fields bound so far. *)
Definition SugaredLogger := list (string * string).

Definition With (l : SugaredLogger) (k v : string) : SugaredLogger :=
  l ++ [(k, v)].

(** [*os.File] as seen during one construction: the name it was opened
    with, the bytes currently in the file, and the failures the operating
    system reports for [Stat] and for a positioned read. *)
Record os_File : Type := mk_File {
  Name : string;
  contents : list byte;
  statErr : option error;
  readErr : option error;
}.

(** The operator configurations of a header pipeline, by name. *)
Definition operator_Config := string.

Record headerPipelineOutput : Type := mk_headerPipelineOutput {
  outputLogger : SugaredLogger;
}.

Definition newHeaderPipelineOutput (l : SugaredLogger) : headerPipelineOutput :=
  {| outputLogger := l |}.

(** [pipeline.Config] *)
Record pipeline_Config : Type := mk_pipeline_Config {
  Operators : list operator_Config;
  DefaultOutput : headerPipelineOutput;
}.

(** [*pipeline.DirectedPipeline]: the configuration it was built from. *)
Record DirectedPipeline : Type := mk_DirectedPipeline {
  pipelineConfig : pipeline_Config;
}.

(** [helper.EncodingConfig] and the encoding it builds, by name. *)
Definition EncodingConfig := string.
Definition Encoding := string.

(** ** Outcomes and the store *)

(** What a Go function with the result list [(x, error)] returns. *)
Inductive result (A : Type) : Type :=
| Value (a : A)
| Error (e : error).
Arguments Value {A} a.
Arguments Error {A} e.

(** The outcome of running a piece of Go code: a value, a returned error,
    or a run-time panic. *)
Inductive res (A : Type) : Type :=
| Ok (a : A)
| Err (e : error)
| Panic (msg : string).
Arguments Ok {A} a.
Arguments Err {A} e.
Arguments Panic {A} msg.

Inductive event : Type :=
| EvErrorf (l : SugaredLogger) (template : string) (e : error)
| EvPipelineBuild (c : pipeline_Config)
| EvPipelineStart (p : DirectedPipeline)
| EvStat (name : string)
| EvReadAt (name : string) (size : Z)
| EvEmit (token : list byte) (attrs : gmap string any).

Record state : Type := mk_state {
  fingerprints : gmap loc (list byte);
  maps : gmap loc (gmap string any);
  trace : list event;
}.

Definition with_trace (s : state) (t : list event) : state :=
  mk_state (fingerprints s) (maps s) t.
Definition with_maps (s : state) (m : gmap loc (gmap string any)) : state :=
  mk_state (fingerprints s) m (trace s).
Definition with_fingerprints (s : state) (f : gmap loc (list byte)) : state :=
  mk_state f (maps s) (trace s).

Definition M (A : Type) : Type := state → res A * state.

Definition ret {A} (a : A) : M A := λ s, (Ok a, s).

Definition bind {A B} (m : M A) (k : A → M B) : M B :=
  λ s, match m s with
       | (Ok a, s') => k a s'
       | (Err e, s') => (Err e, s')
       | (Panic msg, s') => (Panic msg, s')
       end.

Notation "'do' x ← m ; k" := (bind m (λ x, k))
  (at level 10, x name, m at level 100, k at level 200).
Notation "'run' m ; k" := (bind m (λ _, k))
  (at level 10, m at level 100, k at level 200).

Definition panic {A} (msg : string) : M A := λ s, (Panic msg, s).

(** A call whose error is returned to the caller at once
    ([x, err := f(); if err != nil { return nil, err }]). *)
Definition call {A} (r : result A) : M A :=
  λ s, match r with
       | Value a => (Ok a, s)
       | Error e => (Err e, s)
       end.

Definition emit_event (e : event) : M unit :=
  λ s, (Ok tt, with_trace s (trace s ++ [e])).

(** [b.Errorf(template, err)] *)
Definition Errorf (l : SugaredLogger) (template : string) (e : error) : M unit :=
  emit_event (EvErrorf l template e).

(** *** Maps in the store *)

(** [make(map[string]any)] filled with [m]. *)
Definition map_alloc (m : gmap string any) : M (option loc) :=
  λ s, let l := fresh (dom (maps s)) in
       (Ok (Some l), with_maps s (<[l := m]> (maps s))).

(** [m[k]]: a missing key and a nil map both read as nil. *)
Definition map_index (m : option loc) (k : string) : M any :=
  λ s, match m with
       | None => (Ok anyNil, s)
       | Some l =>
           match maps s !! l with
           | None => (Panic "invalid memory address", s)
           | Some g => (Ok (default anyNil (g !! k)), s)
           end
       end.

(** [m[k] = v]: panics on a nil map. *)
Definition map_assign (m : option loc) (k : string) (v : any) : M unit :=
  λ s, match m with
       | None => (Panic "assignment to entry in nil map", s)
       | Some l =>
           match maps s !! l with
           | None => (Panic "invalid memory address", s)
           | Some g => (Ok tt, with_maps s (<[l := <[k := v]> g]> (maps s)))
           end
       end.

(** [delete(m, k)]: a no-op on a nil map. *)
Definition map_delete (m : option loc) (k : string) : M unit :=
  λ s, match m with
       | None => (Ok tt, s)
       | Some l =>
           match maps s !! l with
           | None => (Panic "invalid memory address", s)
           | Some g => (Ok tt, with_maps s (<[l := delete k g]> (maps s)))
           end
       end.

(** Modelled from the spec: [util.MapCopy] (package [internal/util] is not
    among the sources): a copy of the attribute mapping, in storage of its
    own.  A nil map is copied to a new empty map. *)
Definition MapCopy (m : option loc) : M (option loc) :=
  λ s, match m with
       | None => map_alloc ∅ s
       | Some l =>
           match maps s !! l with
           | None => (Panic "invalid memory address", s)
           | Some g => map_alloc g s
           end
       end.

(** *** Fingerprints in the store *)

Definition fingerprint_alloc (bs : list byte) : M (option loc) :=
  λ s, let l := fresh (dom (fingerprints s)) in
       (Ok (Some l), with_fingerprints s (<[l := bs]> (fingerprints s))).

(** Modelled from the spec: [Fingerprint.Copy] (package
    [internal/fingerprint] is not among the sources): an independent value
    copy, with no shared backing storage.  Called through a nil pointer it
    panics. *)
Definition Fingerprint_Copy (fp : option loc) : M (option loc) :=
  λ s, match fp with
       | None => (Panic "nil pointer dereference", s)
       | Some l =>
           match fingerprints s !! l with
           | None => (Panic "invalid memory address", s)
           | Some bs => fingerprint_alloc bs s
           end
       end.

(** Modelled from the spec: [fingerprint.New] (package [internal/fingerprint]
    is not among the sources), the spec's [capture(handle, maxSize)]: a
    positioned read of up to [size] bytes from the start of the file; the
    fingerprint has at most [size] bytes, fewer when the file is shorter; a
    read failure other than end-of-file is an error.  No fingerprint has a
    negative length, so a negative [size] does not return (Go panics on
    making the buffer). *)
Definition fingerprint_New (file : os_File) (size : Z) : M (option loc) :=
  if size <? 0 then panic "makeslice: len out of range"
  else
    run emit_event (EvReadAt (Name file) size);
    match readErr file with
    | Some e => call (Error e)
    | None => fingerprint_alloc (take (Z.to_nat size) (contents file))
    end.

(** ** Configuration, factory, builder and Reader *)

(** [splitterFactory]: an interface with the one method [Build]. *)
Record splitterFactory : Type := mk_splitterFactory {
  splitterFactory_Build : Z → result bufio_SplitFunc;
}.

Record readerConfig : Type := mk_readerConfig {
  fingerprintSize : Z;
  maxLogSize : Z;
  emit : EmitFunc;
  includeFileName : bool;
  includeFilePath : bool;
  includeFileNameResolved : bool;
  includeFilePathResolved : bool;
}.

Record HeaderConfig : Type := mk_HeaderConfig {
  MetadataOperators : list operator_Config;
}.

Record headerSettings : Type := mk_headerSettings {
  hs_splitFunc : bufio_SplitFunc;
  config : HeaderConfig;
}.

Record readerFactory : Type := mk_readerFactory {
  f_SugaredLogger : SugaredLogger;
  f_readerConfig : readerConfig;
  fromBeginning : bool;
  f_splitterFactory : splitterFactory;
  encodingConfig : EncodingConfig;
  f_headerSettings : option headerSettings;
}.

(** What a Reader does with each token: hand it to the downstream callback,
    or consume it as a header line ([r.consumeHeaderLine]). *)
Inductive ProcessFunc : Type :=
| processEmit (e : EmitFunc)
| consumeHeaderLine.

Record Reader : Type := mk_Reader {
  r_SugaredLogger : SugaredLogger;
  r_readerConfig : readerConfig;
  lineSplitFunc : bufio_SplitFunc;
  splitFunc : bufio_SplitFunc;
  encoding : option Encoding;
  processFunc : ProcessFunc;
  Fingerprint : option loc;
  Offset : Z;
  file : option os_File;
  FileAttributes : option loc;
  HeaderFinalized : bool;
  r_headerSettings : option headerSettings;
  r_headerPipeline : option DirectedPipeline;
  r_headerPipelineOutput : option headerPipelineOutput;
}.

Record readerBuilder : Type := mk_readerBuilder {
  b_factory : readerFactory;
  b_file : option os_File;
  fp : option loc;
  offset : Z;
  b_splitFunc : bufio_SplitFunc;
  headerFinalized : bool;
  fileAttributes : option loc;
}.

(** Field assignments [r.x = v] on a Reader. *)
Definition set_lineSplitFunc (r : Reader) (v : bufio_SplitFunc) : Reader :=
  mk_Reader (r_SugaredLogger r) (r_readerConfig r) v (splitFunc r)
    (encoding r) (processFunc r) (Fingerprint r) (Offset r) (file r)
    (FileAttributes r) (HeaderFinalized r) (r_headerSettings r)
    (r_headerPipeline r) (r_headerPipelineOutput r).

Definition set_splitFunc (r : Reader) (v : bufio_SplitFunc) : Reader :=
  mk_Reader (r_SugaredLogger r) (r_readerConfig r) (lineSplitFunc r) v
    (encoding r) (processFunc r) (Fingerprint r) (Offset r) (file r)
    (FileAttributes r) (HeaderFinalized r) (r_headerSettings r)
    (r_headerPipeline r) (r_headerPipelineOutput r).

Definition set_encoding (r : Reader) (v : option Encoding) : Reader :=
  mk_Reader (r_SugaredLogger r) (r_readerConfig r) (lineSplitFunc r)
    (splitFunc r) v (processFunc r) (Fingerprint r) (Offset r) (file r)
    (FileAttributes r) (HeaderFinalized r) (r_headerSettings r)
    (r_headerPipeline r) (r_headerPipelineOutput r).

Definition set_processFunc (r : Reader) (v : ProcessFunc) : Reader :=
  mk_Reader (r_SugaredLogger r) (r_readerConfig r) (lineSplitFunc r)
    (splitFunc r) (encoding r) v (Fingerprint r) (Offset r) (file r)
    (FileAttributes r) (HeaderFinalized r) (r_headerSettings r)
    (r_headerPipeline r) (r_headerPipelineOutput r).

Definition set_Fingerprint (r : Reader) (v : option loc) : Reader :=
  mk_Reader (r_SugaredLogger r) (r_readerConfig r) (lineSplitFunc r)
    (splitFunc r) (encoding r) (processFunc r) v (Offset r) (file r)
    (FileAttributes r) (HeaderFinalized r) (r_headerSettings r)
    (r_headerPipeline r) (r_headerPipelineOutput r).

Definition set_Offset (r : Reader) (v : Z) : Reader :=
  mk_Reader (r_SugaredLogger r) (r_readerConfig r) (lineSplitFunc r)
    (splitFunc r) (encoding r) (processFunc r) (Fingerprint r) v (file r)
    (FileAttributes r) (HeaderFinalized r) (r_headerSettings r)
    (r_headerPipeline r) (r_headerPipelineOutput r).

Definition set_file (r : Reader) (v : option os_File) : Reader :=
  mk_Reader (r_SugaredLogger r) (r_readerConfig r) (lineSplitFunc r)
    (splitFunc r) (encoding r) (processFunc r) (Fingerprint r) (Offset r) v
    (FileAttributes r) (HeaderFinalized r) (r_headerSettings r)
    (r_headerPipeline r) (r_headerPipelineOutput r).

Definition set_FileAttributes (r : Reader) (v : option loc) : Reader :=
  mk_Reader (r_SugaredLogger r) (r_readerConfig r) (lineSplitFunc r)
    (splitFunc r) (encoding r) (processFunc r) (Fingerprint r) (Offset r)
    (file r) v (HeaderFinalized r) (r_headerSettings r)
    (r_headerPipeline r) (r_headerPipelineOutput r).

Definition set_SugaredLogger (r : Reader) (v : SugaredLogger) : Reader :=
  mk_Reader v (r_readerConfig r) (lineSplitFunc r)
    (splitFunc r) (encoding r) (processFunc r) (Fingerprint r) (Offset r)
    (file r) (FileAttributes r) (HeaderFinalized r) (r_headerSettings r)
    (r_headerPipeline r) (r_headerPipelineOutput r).

Definition set_headerPipeline (r : Reader) (v : option DirectedPipeline) : Reader :=
  mk_Reader (r_SugaredLogger r) (r_readerConfig r) (lineSplitFunc r)
    (splitFunc r) (encoding r) (processFunc r) (Fingerprint r) (Offset r)
    (file r) (FileAttributes r) (HeaderFinalized r) (r_headerSettings r)
    v (r_headerPipelineOutput r).

Definition set_headerPipelineOutput (r : Reader)
    (v : option headerPipelineOutput) : Reader :=
  mk_Reader (r_SugaredLogger r) (r_readerConfig r) (lineSplitFunc r)
    (splitFunc r) (encoding r) (processFunc r) (Fingerprint r) (Offset r)
    (file r) (FileAttributes r) (HeaderFinalized r) (r_headerSettings r)
    (r_headerPipeline r) v.

(** Modelled from the spec: [Reader.offsetToEnd] (reader.go is not among the
    sources): sets Offset to the current file length without emitting
    anything.  It asks the operating system for the length, which can fail;
    [build] checks the error it returns. *)
Definition offsetToEnd (r : Reader) : M Reader :=
  match file r with
  | None => panic "nil pointer dereference"
  | Some fl =>
      run emit_event (EvStat (Name fl));
      match statErr fl with
      | Some e => call (Error e)
      | None => ret (set_Offset r (Z.of_nat (length (contents fl))))
      end
  end.

(** [fmt.Errorf(prefix + "%w", err)] around a failing call. *)
Definition wrapErr {A} (prefix : string) (r : result A) : result A :=
  match r with
  | Error e => Error (errorWrap prefix e)
  | Value a => Value a
  end.

(** A call that returns only an [error]. *)
Definition errOnly (o : option error) : result unit :=
  match o with
  | Some e => Error e
  | None => Value tt
  end.

(** [if err != nil { b.Errorf(template, err) }] *)
Definition logFailure (l : SugaredLogger) (template : string)
    (err : option error) : M unit :=
  match err with
  | Some e => Errorf l template e
  | None => ret tt
  end.

(** ** What the file takes from outside

    Package-level constants declared in other files of the package (the four
    attribute keys), the platform, [path/filepath], and the packages [helper]
    and [pipeline], whose calls can fail. *)
Record World : Type := mk_World {
  logFileName : string;
  logFilePath : string;
  logFileNameResolved : string;
  logFilePathResolved : string;
  GOOS : string;
  filepath_EvalSymlinks : string → string * option error;
  filepath_Abs : string → string * option error;
  filepath_Base : string → string;
  EncodingConfig_Build : EncodingConfig → result Encoding;
  pipeline_Config_Build :
    pipeline_Config → SugaredLogger → result DirectedPipeline;
  DirectedPipeline_Start : DirectedPipeline → option error;
}.

Section ReaderFactory.

Context (w : World).

(** ** The builder *)

Definition newReaderBuilder (f : readerFactory) : M readerBuilder :=
  do m ← map_alloc ∅;
  ret {| b_factory := f; b_file := None; fp := None; offset := 0;
         b_splitFunc := None; headerFinalized := false;
         fileAttributes := m |}.

Definition withSplitterFunc (b : readerBuilder) (s : bufio_SplitFunc) :=
  mk_readerBuilder (b_factory b) (b_file b) (fp b) (offset b) s
    (headerFinalized b) (fileAttributes b).

Definition withFile (b : readerBuilder) (f : option os_File) :=
  mk_readerBuilder (b_factory b) f (fp b) (offset b) (b_splitFunc b)
    (headerFinalized b) (fileAttributes b).

Definition withFingerprint (b : readerBuilder) (p : option loc) :=
  mk_readerBuilder (b_factory b) (b_file b) p (offset b) (b_splitFunc b)
    (headerFinalized b) (fileAttributes b).

Definition withOffset (b : readerBuilder) (o : Z) :=
  mk_readerBuilder (b_factory b) (b_file b) (fp b) o (b_splitFunc b)
    (headerFinalized b) (fileAttributes b).

Definition withHeaderFinalized (b : readerBuilder) (finalized : bool) :=
  mk_readerBuilder (b_factory b) (b_file b) (fp b) (offset b) (b_splitFunc b)
    finalized (fileAttributes b).

Definition withFileAttributes (b : readerBuilder) (attrs : option loc) :=
  mk_readerBuilder (b_factory b) (b_file b) (fp b) (offset b) (b_splitFunc b)
    (headerFinalized b) attrs.

Definition newFingerprint (f : readerFactory) (fl : os_File) : M (option loc) :=
  fingerprint_New fl (fingerprintSize (f_readerConfig f)).

(** [build], lines 103-109: the composite literal the Reader starts from. *)
Definition readerLiteral (b : readerBuilder) : Reader :=
  {| r_SugaredLogger := [];
     r_readerConfig := f_readerConfig (b_factory b);
     lineSplitFunc := None;
     splitFunc := None;
     encoding := None;
     processFunc := processEmit None;
     Fingerprint := None;
     Offset := offset b;
     file := None;
     FileAttributes := fileAttributes b;
     HeaderFinalized := headerFinalized b;
     r_headerSettings := f_headerSettings (b_factory b);
     r_headerPipeline := None;
     r_headerPipelineOutput := None |}.

(** [build], lines 111-118: the line split function. *)
Definition buildLineSplitFunc (b : readerBuilder) : M bufio_SplitFunc :=
  match b_splitFunc b with
  | Some _ => ret (b_splitFunc b)
  | None => call (splitterFactory_Build (f_splitterFactory (b_factory b))
                    (maxLogSize (f_readerConfig (b_factory b))))
  end.

(** [build], lines 129-144: the header-phase branch. *)
Definition buildHeaderPhase (f : readerFactory) (hs : headerSettings)
    (r : Reader) : M Reader :=
  let r := set_splitFunc r (hs_splitFunc hs) in
  let r := set_processFunc r consumeHeaderLine in
  let out := newHeaderPipelineOutput (f_SugaredLogger f) in
  let r := set_headerPipelineOutput r (Some out) in
  let cfg := {| Operators := MetadataOperators (config hs);
                DefaultOutput := out |} in
  run emit_event (EvPipelineBuild cfg);
  do p ← call (wrapErr "failed to build pipeline: "
                 (pipeline_Config_Build w cfg (f_SugaredLogger f)));
  let r := set_headerPipeline r (Some p) in
  run emit_event (EvPipelineStart p);
  run call (wrapErr "failed to start header pipeline: "
              (errOnly (DirectedPipeline_Start w p)));
  ret r.

(** [build], lines 125-145:
    [if b.headerSettings == nil || b.headerFinalized { ... } else { ... }]. *)
Definition buildPhase (b : readerBuilder) (r : Reader) : M Reader :=
  let f := b_factory b in
  match f_headerSettings f, headerFinalized b with
  | Some hs, false => buildHeaderPhase f hs r
  | _, _ =>
      let r := set_splitFunc r (lineSplitFunc r) in
      ret (set_processFunc r (processEmit (emit (f_readerConfig f))))
  end.

(** [build], lines 156-170: the file's real path and its absolute path.
    A failure is logged and construction goes on with what was returned. *)
Definition resolvePaths (f : readerFactory) (fl : os_File) : M string :=
  do resolved ←
    (if decide (GOOS w ≠ "windows") then
       let '(resolved, err) := filepath_EvalSymlinks w (Name fl) in
       run logFailure (f_SugaredLogger f) "resolve symlinks: %w" err;
       ret resolved
     else ret (Name fl));
  let '(abs, err) := filepath_Abs w resolved in
  run logFailure (f_SugaredLogger f) "resolve abs: %w" err;
  ret abs.

(** One of the four attribute blocks of [build]:
    [if include { m[key] = v } else if m[key] != nil { delete(m, key) }]. *)
Definition resolveAttribute (include : bool) (m : option loc)
    (key : string) (v : any) : M unit :=
  if include then map_assign m key v
  else
    do old ← map_index m key;
    if decide (old ≠ anyNil) then map_delete m key else ret tt.

(** [build], lines 172-191: the four attribute blocks. *)
Definition resolveAttributes (cfg : readerConfig) (m : option loc)
    (fl : os_File) (abs : string) : M unit :=
  run resolveAttribute (includeFileName cfg) m
        (logFileName w) (anyString (filepath_Base w (Name fl)));
  run resolveAttribute (includeFilePath cfg) m
        (logFilePath w) (anyString (Name fl));
  run resolveAttribute (includeFileNameResolved cfg) m
        (logFileNameResolved w) (anyString (filepath_Base w abs));
  resolveAttribute (includeFilePathResolved cfg) m
        (logFilePathResolved w) (anyString abs).

(** [build], lines 193-210: the start position and the fingerprint. *)
Definition startAndFingerprint (b : readerBuilder) (fl : os_File)
    (r : Reader) : M Reader :=
  let f := b_factory b in
  do r ← (if fromBeginning f then ret r else offsetToEnd r);
  match fp b with
  | Some _ => ret (set_Fingerprint r (fp b))
  | None =>
      do p ← newFingerprint f fl;
      ret (set_Fingerprint r p)
  end.

(** [build], lines 152-210: the part that runs only with a bound file. *)
Definition buildWithFile (b : readerBuilder) (fl : os_File) (r : Reader)
    : M Reader :=
  let f := b_factory b in
  let r := set_file r (Some fl) in
  let r := set_SugaredLogger r (With (f_SugaredLogger f) "path" (Name fl)) in
  let r := set_FileAttributes r (fileAttributes b) in
  do abs ← resolvePaths f fl;
  run resolveAttributes (f_readerConfig f) (FileAttributes r) fl abs;
  startAndFingerprint b fl r.

Definition build (b : readerBuilder) : M Reader :=
  let f := b_factory b in
  let r := readerLiteral b in
  do lsf ← buildLineSplitFunc b;
  let r := set_lineSplitFunc r lsf in
  do enc ← call (EncodingConfig_Build w (encodingConfig f));
  let r := set_encoding r (Some enc) in
  do r ← buildPhase b r;
  match b_file b with
  | None =>
      ret (set_SugaredLogger r (With (f_SugaredLogger f) "path" "uninitialized"))
  | Some fl => buildWithFile b fl r
  end.

(** ** The factory *)

Definition newReader (f : readerFactory) (fl : option os_File)
    (p : option loc) : M Reader :=
  do b ← newReaderBuilder f;
  build (withFingerprint (withFile b fl) p).

Definition copy (f : readerFactory) (old : Reader) (newFile : option os_File)
    : M Reader :=
  do b ← newReaderBuilder f;
  let b := withFile b newFile in
  do p ← Fingerprint_Copy (Fingerprint old);
  let b := withFingerprint b p in
  let b := withOffset b (Offset old) in
  let b := withSplitterFunc b (lineSplitFunc old) in
  do attrs ← MapCopy (FileAttributes old);
  let b := withFileAttributes b attrs in
  let b := withHeaderFinalized b (HeaderFinalized old) in
  build b.

Definition unsafeReader (f : readerFactory) : M Reader :=
  do b ← newReaderBuilder f;
  build b.

End ReaderFactory.

(** * exporter/prometheusremotewriteexporter: the helpers of [wal_test.go]

    [orderByLabelValue] puts a write request into a canonical order before
    two requests are compared.  It works in place, through pointers into the
    label and sample slices of each series; a pointer to a slice element is
    modelled as the element's index, read at the time of the dereference.
    Each series is taken to have slices of its own. *)

(** [prompb.Label] *)
Record prompb_Label : Type := mk_Label {
  label_Name : string;
  label_Value : string;
}.

(** [prompb.Sample]; the float64 [Value] as its 64 bits. *)
Record prompb_Sample : Type := mk_Sample {
  sample_Value : Z;
  sample_Timestamp : Z;
}.

(** [prompb.TimeSeries]: the two fields the helpers touch.  Each series
    owns its two slices: no two series share a backing array, as in the
    requests the tests build. *)
Record prompb_TimeSeries : Type := mk_TimeSeries {
  Labels : list prompb_Label;
  Samples : list prompb_Sample;
}.

(** [prompb.WriteRequest] *)
Record prompb_WriteRequest : Type := mk_WriteRequest {
  Timeseries : list prompb_TimeSeries;
}.

(** [byLabelMessage]: a pointer to a label and a pointer to a sample of one
    series. *)
Record byLabelMessage : Type := mk_byLabelMessage {
  label : nat;
  sample : nat;
}.

Section WalTest.

(** [sort.Slice(x, func(i, j int) bool { return key(x[i]) < key(x[j]) })],
    and [TimeSeries.String]. *)
Context (sort_Slice : ∀ A : Type, (A → string) → list A → list A).
Context (TimeSeries_String : prompb_TimeSeries → string).

(** [*p] for a pointer into the labels, respectively the samples. *)
Definition derefLabel (ts : prompb_TimeSeries) (p : nat) : prompb_Label :=
  default (mk_Label "" "") (Labels ts !! p).

Definition derefSample (ts : prompb_TimeSeries) (p : nat) : prompb_Sample :=
  default (mk_Sample 0 0) (Samples ts !! p).

(** [orderByLabelValue], lines 53-59: one message per label index;
    [&timeSeries.Samples[i]] panics when there is no such sample. *)
Fixpoint collectMessages (indexes : list nat) (ts : prompb_TimeSeries)
    : res (list byLabelMessage) :=
  match indexes with
  | [] => Ok []
  | i :: rest =>
      match Samples ts !! i with
      | None => Panic "index out of range"
      | Some _ =>
          match collectMessages rest ts with
          | Ok bMsgs => Ok (mk_byLabelMessage i i :: bMsgs)
          | Err e => Err e
          | Panic msg => Panic msg
          end
      end
  end.

(** [orderByLabelValue], lines 64-67: the labels and samples are written
    back one index after the other, each read through its pointer when its
    turn comes. *)
Fixpoint writeBack (bMsgs : list byLabelMessage) (i : nat)
    (ts : prompb_TimeSeries) : prompb_TimeSeries :=
  match bMsgs with
  | [] => ts
  | m :: rest =>
      let ts := mk_TimeSeries (<[i := derefLabel ts (label m)]> (Labels ts))
                  (Samples ts) in
      let ts := mk_TimeSeries (Labels ts)
                  (<[i := derefSample ts (sample m)]> (Samples ts)) in
      writeBack rest (S i) ts
  end.

(** [orderByLabelValue], lines 52-68: the body of the loop over the
    series. *)
Definition sortSeries (ts : prompb_TimeSeries) : res prompb_TimeSeries :=
  match collectMessages (seq 0 (length (Labels ts))) ts with
  | Ok bMsgs =>
      let sorted :=
        sort_Slice _ (λ m, label_Value (derefLabel ts (label m))) bMsgs in
      Ok (writeBack sorted 0 ts)
  | Err e => Err e
  | Panic msg => Panic msg
  end.

Fixpoint sortEachSeries (tss : list prompb_TimeSeries)
    : res (list prompb_TimeSeries) :=
  match tss with
  | [] => Ok []
  | ts :: rest =>
      match sortSeries ts with
      | Ok ts' =>
          match sortEachSeries rest with
          | Ok rest' => Ok (ts' :: rest')
          | Err e => Err e
          | Panic msg => Panic msg
          end
      | Err e => Err e
      | Panic msg => Panic msg
      end
  end.

(** The request as [orderByLabelValue] leaves it. *)
Definition orderByLabelValue (wreq : prompb_WriteRequest)
    : res prompb_WriteRequest :=
  match sortEachSeries (Timeseries wreq) with
  | Ok tss => Ok (mk_WriteRequest (sort_Slice _ TimeSeries_String tss))
  | Err e => Err e
  | Panic msg => Panic msg
  end.

Fixpoint orderByLabelValueForEach (reqL : list prompb_WriteRequest)
    : res (list prompb_WriteRequest) :=
  match reqL with
  | [] => Ok []
  | req :: rest =>
      match orderByLabelValue req with
      | Ok req' =>
          match orderByLabelValueForEach rest with
          | Ok rest' => Ok (req' :: rest')
          | Err e => Err e
          | Panic msg => Panic msg
          end
      | Err e => Err e
      | Panic msg => Panic msg
      end
  end.

End WalTest.

(** ** Sample data *)

(** The last element of a slash-separated path. *)
Fixpoint ex_lastElement (acc s : string) : string :=
  match s with
  | EmptyString => acc
  | String c s' =>
      if Ascii.eqb c "/"%char then ex_lastElement "" s'
      else ex_lastElement (acc +:+ String c "") s'
  end.

Definition ex_lineSplit : bufio_SplitFunc :=
  Some (λ data atEOF, (Z.of_nat (length data), Some data, None)).

Definition ex_headerSplit : bufio_SplitFunc :=
  Some (λ data atEOF, (1, None, None)).

(** A Linux host on which every call succeeds. *)
Definition ex_world : World :=
  {| logFileName := "log.file.name";
     logFilePath := "log.file.path";
     logFileNameResolved := "log.file.name_resolved";
     logFilePathResolved := "log.file.path_resolved";
     GOOS := "linux";
     filepath_EvalSymlinks := λ p, (p, None);
     filepath_Abs := λ p, ("/var/log/" +:+ p, None);
     filepath_Base := ex_lastElement "";
     EncodingConfig_Build := λ c, Value c;
     pipeline_Config_Build := λ c l, Value {| pipelineConfig := c |};
     DirectedPipeline_Start := λ p, None |}.

(** The same host when neither the symlinks nor the working directory can
    be resolved. *)
Definition ex_world_unresolved : World :=
  {| logFileName := "log.file.name";
     logFilePath := "log.file.path";
     logFileNameResolved := "log.file.name_resolved";
     logFilePathResolved := "log.file.path_resolved";
     GOOS := "linux";
     filepath_EvalSymlinks := λ p, ("", Some (errorString "too many links"));
     filepath_Abs := λ p, ("", Some (errorString "getwd failed"));
     filepath_Base := ex_lastElement "";
     EncodingConfig_Build := λ c, Value c;
     pipeline_Config_Build := λ c l, Value {| pipelineConfig := c |};
     DirectedPipeline_Start := λ p, None |}.

(** The same host when the header operators cannot be built. *)
Definition ex_world_nopipeline : World :=
  {| logFileName := "log.file.name";
     logFilePath := "log.file.path";
     logFileNameResolved := "log.file.name_resolved";
     logFilePathResolved := "log.file.path_resolved";
     GOOS := "linux";
     filepath_EvalSymlinks := λ p, (p, None);
     filepath_Abs := λ p, ("/var/log/" +:+ p, None);
     filepath_Base := ex_lastElement "";
     EncodingConfig_Build := λ c, Value c;
     pipeline_Config_Build := λ c l, Error (errorString "unsupported type");
     DirectedPipeline_Start := λ p, None |}.

Definition ex_config (name path : bool) : readerConfig :=
  {| fingerprintSize := 4;
     maxLogSize := 1024;
     emit := Some (λ token attrs, true);
     includeFileName := name;
     includeFilePath := path;
     includeFileNameResolved := false;
     includeFilePathResolved := false |}.

Definition ex_headerSettings : headerSettings :=
  {| hs_splitFunc := ex_headerSplit;
     config := {| MetadataOperators := ["regex_parser"] |} |}.

Definition ex_factory (cfg : readerConfig) (fromBeginning : bool)
    (hs : option headerSettings) : readerFactory :=
  {| f_SugaredLogger := [("component", "fileconsumer")];
     f_readerConfig := cfg;
     fromBeginning := fromBeginning;
     f_splitterFactory := {| splitterFactory_Build := λ _, Value ex_lineSplit |};
     encodingConfig := "utf-8";
     f_headerSettings := hs |}.

(** A six-byte file: three lines. *)
Definition ex_file : os_File :=
  {| Name := "logs/app.log";
     contents := [x41; x0a; x42; x0a; x43; x0a];
     statErr := None;
     readErr := None |}.

(** The same file when the positioned read fails. *)
Definition ex_file_unreadable : os_File :=
  {| Name := "logs/app.log";
     contents := [x41; x0a; x42; x0a; x43; x0a];
     statErr := None;
     readErr := Some (errorString "input/output error") |}.

Definition ex_empty : state :=
  {| fingerprints := ∅; maps := ∅; trace := [] |}.

(** A store holding one fingerprint and one attribute map, and a Reader
    that refers to them and has consumed the first line (two bytes). *)
Definition ex_store (attrs : gmap string any) : state :=
  {| fingerprints := {[ 1%positive := [x41; x0a; x42; x0a] ]};
     maps := {[ 1%positive := attrs ]};
     trace := [] |}.

Definition ex_old (finalized : bool) : Reader :=
  {| r_SugaredLogger := [("component", "fileconsumer"); ("path", "logs/app.log")];
     r_readerConfig := ex_config true false;
     lineSplitFunc := ex_lineSplit;
     splitFunc := ex_lineSplit;
     encoding := Some "utf-8";
     processFunc := processEmit (Some (λ token attrs, true));
     Fingerprint := Some 1%positive;
     Offset := 2;
     file := Some ex_file;
     FileAttributes := Some 1%positive;
     HeaderFinalized := finalized;
     r_headerSettings := None;
     r_headerPipeline := None;
     r_headerPipelineOutput := None |}.

Definition ex_attrs : gmap string any :=
  {[ "log.file.name" := anyString "app.log" ]}.

(** A builder of factory [f] for file [fl], whose attribute map is the one
    of [ex_store]. *)
Definition ex_builder (f : readerFactory) (fl : option os_File) : readerBuilder :=
  {| b_factory := f; b_file := fl; fp := None; offset := 0;
     b_splitFunc := None; headerFinalized := false;
     fileAttributes := Some 1%positive |}.

Definition ex_headerFactory : readerFactory :=
  ex_factory (ex_config true false) true (Some ex_headerSettings).

Definition ex_plainFactory (fromBeginning : bool) : readerFactory :=
  ex_factory (ex_config true false) fromBeginning None.

(** A Windows host, on which the symlinks could not be resolved if anyone
    asked. *)
Definition ex_world_windows : World :=
  {| logFileName := "log.file.name";
     logFilePath := "log.file.path";
     logFileNameResolved := "log.file.name_resolved";
     logFilePathResolved := "log.file.path_resolved";
     GOOS := "windows";
     filepath_EvalSymlinks := λ p, ("", Some (errorString "too many links"));
     filepath_Abs := λ p, ("C:/logs/" +:+ p, None);
     filepath_Base := ex_lastElement "";
     EncodingConfig_Build := λ c, Value c;
     pipeline_Config_Build := λ c l, Value {| pipelineConfig := c |};
     DirectedPipeline_Start := λ p, None |}.

(** The Linux host when the encoding is not known. *)
Definition ex_world_noencoding : World :=
  {| logFileName := "log.file.name";
     logFilePath := "log.file.path";
     logFileNameResolved := "log.file.name_resolved";
     logFilePathResolved := "log.file.path_resolved";
     GOOS := "linux";
     filepath_EvalSymlinks := λ p, (p, None);
     filepath_Abs := λ p, ("/var/log/" +:+ p, None);
     filepath_Base := ex_lastElement "";
     EncodingConfig_Build := λ c, Error (errorString "unsupported encoding");
     pipeline_Config_Build := λ c l, Value {| pipelineConfig := c |};
     DirectedPipeline_Start := λ p, None |}.


(** A splitter factory that cannot build. *)
Definition ex_failingSplitter : splitterFactory :=
  {| splitterFactory_Build := λ _, Error (errorString "invalid multiline") |}.

(** A builder with a nil attribute map, and one with a split function of
    its own. *)
Definition ex_builder_nilmap (f : readerFactory) (fl : option os_File)
    : readerBuilder :=
  {| b_factory := f; b_file := fl; fp := None; offset := 0;
     b_splitFunc := None; headerFinalized := false;
     fileAttributes := None |}.

Definition ex_builder_split (f : readerFactory) (fl : option os_File)
    : readerBuilder :=
  {| b_factory := f; b_file := fl; fp := None; offset := 0;
     b_splitFunc := ex_headerSplit; headerFinalized := false;
     fileAttributes := Some 1%positive |}.

(** A [sort.Slice] by string key: merge sort. *)
Definition ex_sortSlice (A : Type) (key : A → string) (l : list A) : list A :=
  @merge_sort A (λ a b, String.ltb (key b) (key a) = false)
    (λ a b, decide (String.ltb (key b) (key a) = false)) l.

(** A stand-in for [TimeSeries.String]: the label values, one after the
    other. *)
Definition ex_String (ts : prompb_TimeSeries) : string :=
  foldr (λ l acc, label_Value l +:+ ";" +:+ acc) "" (Labels ts).

Definition ex_labelA : prompb_Label := mk_Label "host" "a".
Definition ex_labelB : prompb_Label := mk_Label "zone" "b".
Definition ex_sample1 : prompb_Sample := mk_Sample 1 100.
Definition ex_sample2 : prompb_Sample := mk_Sample 2 200.

(** A series with its two labels in order, and the same out of order. *)
Definition ex_seriesInOrder : prompb_TimeSeries :=
  mk_TimeSeries [ex_labelA; ex_labelB] [ex_sample1; ex_sample2].

Definition ex_seriesOutOfOrder : prompb_TimeSeries :=
  mk_TimeSeries [ex_labelB; ex_labelA] [ex_sample2; ex_sample1].

(** The second request of [TestWAL_persist]. *)
Definition ex_request : prompb_WriteRequest :=
  mk_WriteRequest
    [ mk_TimeSeries [mk_Label "ts2l1" "ts2k1"] [mk_Sample 2 200];
      mk_TimeSeries [mk_Label "ts1l1" "ts1k1"] [mk_Sample 1 100] ].

(** ** The vocabulary of the statements *)

Section Vocabulary.

Context (w : World).

(** The events appended between two states. *)
Definition appended (s s' : state) (new : list event) : Prop :=
  trace s' = trace s ++ new.

(** Whatever the outcome, [m] only appends events that satisfy [P]. *)
Definition emits {A} (P : event → Prop) (m : M A) : Prop :=
  ∀ s, ∃ new, appended s (m s).2 new ∧ Forall P new.

(** Kinds of events. *)
Definition is_pipeline_event (e : event) : bool :=
  match e with
  | EvPipelineBuild _ | EvPipelineStart _ => true
  | _ => false
  end.

Definition is_emit_event (e : event) : bool :=
  match e with
  | EvEmit _ _ => true
  | _ => false
  end.


(** The Go expression [m[k]] evaluated in state [s]. *)
Definition index (s : state) (m : option loc) (k : string) : any :=
  match m with
  | None => anyNil
  | Some l =>
      match maps s !! l with
      | None => anyNil
      | Some g => default anyNil (g !! k)
      end
  end.

(** The map object behind a map value, if it is a live non-nil map. *)
Definition map_at (s : state) (m : option loc) : option (gmap string any) :=
  l ← m; maps s !! l.

(** The bytes of the fingerprint behind a pointer. *)
Definition bytes_at (s : state) (p : option loc) : option (list byte) :=
  l ← p; fingerprints s !! l.

(** What one attribute block of [build] does to a live map. *)
Definition resolved (include : bool) (key : string) (v : any)
    (g : gmap string any) : gmap string any :=
  if include then <[key := v]> g
  else if decide (default anyNil (g !! key) ≠ anyNil) then delete key g
  else g.

(** The header pipeline is wanted: settings present, header not finalized. *)
Definition wantsHeader (b : readerBuilder) : Prop :=
  is_Some (f_headerSettings (b_factory b)) ∧ headerFinalized b = false.

(** The four attribute blocks in sequence, on a live map. *)
Definition resolvedAll (cfg : readerConfig) (fl : os_File) (abs : string)
    (g : gmap string any) : gmap string any :=
  resolved (includeFilePathResolved cfg) (logFilePathResolved w) (anyString abs)
    (resolved (includeFileNameResolved cfg) (logFileNameResolved w)
       (anyString (filepath_Base w abs))
       (resolved (includeFilePath cfg) (logFilePath w) (anyString (Name fl))
          (resolved (includeFileName cfg) (logFileName w)
             (anyString (filepath_Base w (Name fl))) g))).

(** All four include flags are off. *)
Definition noAttributes (cfg : readerConfig) : Prop :=
  includeFileName cfg = false ∧ includeFilePath cfg = false ∧
  includeFileNameResolved cfg = false ∧ includeFilePathResolved cfg = false.

(** The values of [resolved] and [abs] in [build] (lines 157-167), whether
    or not the resolutions failed. *)
Definition resolvedName (fl : os_File) : string :=
  if decide (GOOS w ≠ "windows") then (filepath_EvalSymlinks w (Name fl)).1
  else Name fl.

Definition absName (fl : os_File) : string :=
  (filepath_Abs w (resolvedName fl)).1.

(** The events of [if err != nil { b.Errorf(template, err) }]. *)
Definition logged (l : SugaredLogger) (template : string)
    (err : option error) : list event :=
  match err with
  | Some e => [EvErrorf l template e]
  | None => []
  end.

(** What [build] logs while it resolves the paths of [fl]. *)
Definition resolveLogs (f : readerFactory) (fl : os_File) : list event :=
  (if decide (GOOS w ≠ "windows")
   then logged (f_SugaredLogger f) "resolve symlinks: %w"
          (filepath_EvalSymlinks w (Name fl)).2
   else []) ++
  logged (f_SugaredLogger f) "resolve abs: %w"
    (filepath_Abs w (resolvedName fl)).2.

(** The [pipeline.Config] literal of the header-phase branch. *)
Definition headerPipelineConfig (f : readerFactory) (hs : headerSettings)
    : pipeline_Config :=
  {| Operators := MetadataOperators (config hs);
     DefaultOutput := newHeaderPipelineOutput (f_SugaredLogger f) |}.

(** The Reader as the normal-phase branch leaves it. *)
Definition normalReader (f : readerFactory) (r : Reader) : Reader :=
  set_processFunc (set_splitFunc r (lineSplitFunc r))
    (processEmit (emit (f_readerConfig f))).

(** The Reader as the header-phase branch leaves it on success. *)
Definition headerReader (f : readerFactory) (hs : headerSettings)
    (p : DirectedPipeline) (r : Reader) : Reader :=
  set_headerPipeline
    (set_headerPipelineOutput
       (set_processFunc (set_splitFunc r (hs_splitFunc hs)) consumeHeaderLine)
       (Some (newHeaderPipelineOutput (f_SugaredLogger f))))
    (Some p).

(** Offset of a Reader bound to [fl] once the start position is chosen. *)
Definition startOffset (f : readerFactory) (fl : os_File) (r : Reader) : Z :=
  if fromBeginning f then Offset r else Z.of_nat (length (contents fl)).

(** The events of choosing the start position. *)
Definition statEvents (f : readerFactory) (fl : os_File) : list event :=
  if fromBeginning f then [] else [EvStat (Name fl)].

(** The bytes of a fingerprint captured from [fl]. *)
Definition capturedBytes (f : readerFactory) (fl : os_File) : list byte :=
  take (Z.to_nat (fingerprintSize (f_readerConfig f))) (contents fl).

(** The Reader as [build] has it before it resolves the paths. *)
Definition boundReader (b : readerBuilder) (fl : os_File) (r : Reader) : Reader :=
  set_FileAttributes
    (set_SugaredLogger (set_file r (Some fl))
       (With (f_SugaredLogger (b_factory b)) "path" (Name fl)))
    (fileAttributes b).

(** The Reader handed to the phase branch. *)
Definition preparedReader (b : readerBuilder) (lsf : bufio_SplitFunc)
    (enc : Encoding) : Reader :=
  set_encoding (set_lineSplitFunc (readerLiteral b) lsf) (Some enc).

(** The line split function [build] settles on. *)
Definition lineSplitOf (b : readerBuilder) (lsf : bufio_SplitFunc) : Prop :=
  match b_splitFunc b with
  | Some _ => lsf = b_splitFunc b
  | None => splitterFactory_Build (f_splitterFactory (b_factory b))
              (maxLogSize (f_readerConfig (b_factory b))) = Value lsf
  end.

(** What the attribute blocks did between two states: nothing on a nil map
    (possible only with all four flags off), or the four updates in place on
    the builder's live map. *)
Definition attributesResolved (b : readerBuilder) (fl : os_File)
    (s s2 : state) : Prop :=
  (fileAttributes b = None ∧ noAttributes (f_readerConfig (b_factory b)) ∧
   maps s2 = maps s) ∨
  (∃ l g, fileAttributes b = Some l ∧ maps s !! l = Some g ∧
     maps s2 = <[l := resolvedAll (f_readerConfig (b_factory b)) fl
                         (absName fl) g]> (maps s)).

(** A Reader in the normal phase of factory [f]. *)
Definition normalPhase (f : readerFactory) (r : Reader) : Prop :=
  splitFunc r = lineSplitFunc r ∧
  processFunc r = processEmit (emit (f_readerConfig f)) ∧
  r_headerPipeline r = None ∧
  r_headerPipelineOutput r = None.

(** A Reader in the header phase of factory [f], whose header pipeline was
    constructed and started between the states [s] and [s']. *)
Definition headerPhase (f : readerFactory) (r : Reader) (s s' : state) : Prop :=
  ∃ hs p,
    f_headerSettings f = Some hs ∧
    splitFunc r = hs_splitFunc hs ∧
    processFunc r = consumeHeaderLine ∧
    r_headerPipeline r = Some p ∧
    r_headerPipelineOutput r = Some (newHeaderPipelineOutput (f_SugaredLogger f)) ∧
    pipeline_Config_Build w (headerPipelineConfig f hs) (f_SugaredLogger f)
      = Value p ∧
    DirectedPipeline_Start w p = None ∧
    ∃ rest, appended s s'
              ([EvPipelineBuild (headerPipelineConfig f hs); EvPipelineStart p]
               ++ rest).

(** The Offset [build] leaves in the Reader. *)
Definition builtOffset (b : readerBuilder) : Z :=
  match b_file b with
  | Some fl =>
      if fromBeginning (b_factory b) then offset b
      else Z.of_nat (length (contents fl))
  | None => offset b
  end.

(** The builder [newReaderBuilder] returns, with its new empty map at [l]. *)
Definition freshBuilder (f : readerFactory) (l : loc) : readerBuilder :=
  {| b_factory := f; b_file := None; fp := None; offset := 0;
     b_splitFunc := None; headerFinalized := false;
     fileAttributes := Some l |}.

(** The builder [copy] hands to [build]. *)
Definition copyBuilder (f : readerFactory) (old : Reader)
    (newFile : option os_File) (p attrs : option loc) : readerBuilder :=
  {| b_factory := f; b_file := newFile; fp := p; offset := Offset old;
     b_splitFunc := lineSplitFunc old; headerFinalized := HeaderFinalized old;
     fileAttributes := attrs |}.

(** The store as [copy] leaves it for [build]: the builder's first map at
    [l0], the cloned fingerprint at [lfp], the copied attributes at [lm]. *)
Definition copyStore (s : state) (bs : list byte) (g : gmap string any) : state :=
  let l0 := fresh (dom (maps s)) in
  let m0 := <[l0 := ∅]> (maps s) in
  mk_state (<[fresh (dom (fingerprints s)) := bs]> (fingerprints s))
    (<[fresh (dom m0) := g]> m0) (trace s).

(** How the header pipeline of factory [f] fails, and the error [build]
    makes of it. *)
Definition pipelineFailure (f : readerFactory) (hs : headerSettings)
    (e : error) : Prop :=
  (∃ e0, pipeline_Config_Build w (headerPipelineConfig f hs) (f_SugaredLogger f)
           = Error e0 ∧
         e = errorWrap "failed to build pipeline: " e0) ∨
  (∃ p e0, pipeline_Config_Build w (headerPipelineConfig f hs) (f_SugaredLogger f)
             = Value p ∧
           DirectedPipeline_Start w p = Some e0 ∧
           e = errorWrap "failed to start header pipeline: " e0).

(** Whatever the outcome, [m] leaves the component [proj] of the state as
    it was. *)
Definition keeps {A X} (proj : state → X) (m : M A) : Prop :=
  ∀ s, proj (m s).2 = proj s.

(** Where an error returned by [build] comes from. *)
Definition errorSource (b : readerBuilder) (e : error) : Prop :=
  let f := b_factory b in
  (b_splitFunc b = None ∧
   splitterFactory_Build (f_splitterFactory f) (maxLogSize (f_readerConfig f))
     = Error e) ∨
  EncodingConfig_Build w (encodingConfig f) = Error e ∨
  (∃ hs, wantsHeader b ∧ f_headerSettings f = Some hs ∧ pipelineFailure f hs e) ∨
  (∃ fl, b_file b = Some fl ∧ fromBeginning f = false ∧ statErr fl = Some e) ∨
  (∃ fl, b_file b = Some fl ∧ fp b = None ∧ readErr fl = Some e).

(** Where a panic of [build] comes from. *)
Definition panicSource (b : readerBuilder) (s : state) : Prop :=
  ∃ fl, b_file b = Some fl ∧
    ((fp b = None ∧ fingerprintSize (f_readerConfig (b_factory b)) < 0) ∨
     map_at s (fileAttributes b) = None).

(** The four attribute blocks of [build]: flag, key and value. *)
Definition fileAttributeTable (cfg : readerConfig) (fl : os_File)
    : list (bool * string * any) :=
  [ (includeFileName cfg, logFileName w,
     anyString (filepath_Base w (Name fl)));
    (includeFilePath cfg, logFilePath w, anyString (Name fl));
    (includeFileNameResolved cfg, logFileNameResolved w,
     anyString (filepath_Base w (absName fl)));
    (includeFilePathResolved cfg, logFilePathResolved w,
     anyString (absName fl)) ].

(** The four attribute keys. *)
Definition attributeKeys : list string :=
  [logFileName w; logFilePath w; logFileNameResolved w; logFilePathResolved w].


(** Every step of [build] that can return an error or panic goes well for
    builder [b] on file [fl] in state [s]; nothing is asked of the two path
    resolutions. *)
Definition otherStepsSucceed (b : readerBuilder) (fl : os_File) (s : state)
    : Prop :=
  let f := b_factory b in
  (b_splitFunc b = None →
   ∃ lsf, splitterFactory_Build (f_splitterFactory f)
            (maxLogSize (f_readerConfig f)) = Value lsf) ∧
  (∃ enc, EncodingConfig_Build w (encodingConfig f) = Value enc) ∧
  (∀ hs, f_headerSettings f = Some hs → headerFinalized b = false →
     ∃ p, pipeline_Config_Build w (headerPipelineConfig f hs) (f_SugaredLogger f)
            = Value p ∧
          DirectedPipeline_Start w p = None) ∧
  is_Some (map_at s (fileAttributes b)) ∧
  (fromBeginning f = false → statErr fl = None) ∧
  (fp b = None → readErr fl = None ∧ 0 ≤ fingerprintSize (f_readerConfig f)).

End Vocabulary.

(** ** More vocabulary: the steps of [build] and what they leave behind *)

Section StepVocabulary.

Context (w : World).

(** Factory [f] with another splitter factory, and a builder on it. *)
Definition factoryWithSplitter (f : readerFactory) (sfac : splitterFactory)
    : readerFactory :=
  mk_readerFactory (f_SugaredLogger f) (f_readerConfig f) (fromBeginning f)
    sfac (encodingConfig f) (f_headerSettings f).

Definition builderWithSplitter (b : readerBuilder) (sfac : splitterFactory)
    : readerBuilder :=
  mk_readerBuilder (factoryWithSplitter (b_factory b) sfac) (b_file b) (fp b)
    (offset b) (b_splitFunc b) (headerFinalized b) (fileAttributes b).

(** The same platform with another [filepath.EvalSymlinks]. *)
Definition worldWithEvalSymlinks (ev : string → string * option error) : World :=
  mk_World (logFileName w) (logFilePath w) (logFileNameResolved w)
    (logFilePathResolved w) (GOOS w) ev (filepath_Abs w) (filepath_Base w)
    (EncodingConfig_Build w) (pipeline_Config_Build w)
    (DirectedPipeline_Start w).

(** The line split function or the encoding cannot be had: the error with
    which [build] stops before its phase branch. *)
Definition earlyFailure (b : readerBuilder) (e : error) : Prop :=
  let f := b_factory b in
  (b_splitFunc b = None ∧
   splitterFactory_Build (f_splitterFactory f) (maxLogSize (f_readerConfig f))
     = Error e) ∨
  ((∃ lsf, lineSplitOf b lsf) ∧
   EncodingConfig_Build w (encodingConfig f) = Error e).

(** The header pipeline, where [build] needs one, builds and starts. *)
Definition phaseSucceeds (b : readerBuilder) : Prop :=
  ∀ hs, f_headerSettings (b_factory b) = Some hs → headerFinalized b = false →
    ∃ p, pipeline_Config_Build w (headerPipelineConfig (b_factory b) hs)
           (f_SugaredLogger (b_factory b)) = Value p ∧
         DirectedPipeline_Start w p = None.

(** The steps of [build] up to and including the phase branch go well. *)
Definition frontSucceeds (b : readerBuilder) : Prop :=
  (∃ lsf, lineSplitOf b lsf) ∧
  (∃ enc, EncodingConfig_Build w (encodingConfig (b_factory b)) = Value enc) ∧
  phaseSucceeds b.

(** [Stat] and the positioned read go well where [build] needs them. *)
Definition fileStepsSucceed (b : readerBuilder) (fl : os_File) : Prop :=
  (fromBeginning (b_factory b) = false → statErr fl = None) ∧
  (fp b = None →
   readErr fl = None ∧ 0 ≤ fingerprintSize (f_readerConfig (b_factory b))).

(** The events of the phase branch of a [build] that gets past it. *)
Definition phaseEvents (b : readerBuilder) : list event :=
  match f_headerSettings (b_factory b), headerFinalized b with
  | Some hs, false =>
      match pipeline_Config_Build w (headerPipelineConfig (b_factory b) hs)
              (f_SugaredLogger (b_factory b)) with
      | Value p =>
          [EvPipelineBuild (headerPipelineConfig (b_factory b) hs);
           EvPipelineStart p]
      | Error _ => [EvPipelineBuild (headerPipelineConfig (b_factory b) hs)]
      end
  | _, _ => []
  end.

(** The events of taking the fingerprint. *)
Definition readEvents (b : readerBuilder) (fl : os_File) : list event :=
  match fp b with
  | Some _ => []
  | None => [EvReadAt (Name fl) (fingerprintSize (f_readerConfig (b_factory b)))]
  end.

(** Factory [f] can build its split function, its encoding and, if it has
    header settings, its header pipeline. *)
Definition factoryReady (f : readerFactory) : Prop :=
  (∃ lsf, splitterFactory_Build (f_splitterFactory f)
            (maxLogSize (f_readerConfig f)) = Value lsf) ∧
  (∃ enc, EncodingConfig_Build w (encodingConfig f) = Value enc) ∧
  (∀ hs, f_headerSettings f = Some hs →
     ∃ p, pipeline_Config_Build w (headerPipelineConfig f hs) (f_SugaredLogger f)
            = Value p ∧
          DirectedPipeline_Start w p = None).

End StepVocabulary.

(** ** Vocabulary for the helpers of [wal_test.go] *)

(** What [sort.Slice] promises for a comparison by string key: the result
    is a rearrangement of its input in which no element is followed by one
    with a smaller key.  Elements with equal keys may come in any order. *)
Definition sortsByKey
    (sort_Slice : ∀ A : Type, (A → string) → list A → list A) : Prop :=
  ∀ (A : Type) (key : A → string) (l : list A),
    sort_Slice A key l ≡ₚ l ∧
    Sorted (λ a b, String.ltb (key b) (key a) = false) (sort_Slice A key l).

(** The label values grow strictly from each label to every later one. *)
Definition strictlyIncreasing (ls : list prompb_Label) : Prop :=
  StronglySorted (λ a b, String.ltb (label_Value a) (label_Value b) = true) ls.

(** The series has a sample for each of its labels. *)
Definition hasSamples (ts : prompb_TimeSeries) : Prop :=
  (length (Labels ts) ≤ length (Samples ts))%nat.

(** A message whose two pointers are inside the series. *)
Definition validMessage (ts : prompb_TimeSeries) (m : byLabelMessage) : Prop :=
  (label m < length (Labels ts))%nat ∧ (sample m < length (Samples ts))%nat.

(** Every series of the request has its labels in strictly growing value
    order and a sample for each of them. *)
Definition seriesInOrder (wreq : prompb_WriteRequest) : Prop :=
  Forall (λ ts, strictlyIncreasing (Labels ts) ∧ hasSamples ts)
    (Timeseries wreq).

(** The series of [wreq'] are those of [wreq], arranged so that no series is
    followed by one with a smaller [String]. *)
Definition rearrangedByString (TimeSeries_String : prompb_TimeSeries → string)
    (wreq wreq' : prompb_WriteRequest) : Prop :=
  Timeseries wreq' ≡ₚ Timeseries wreq ∧
  Sorted (λ a b, String.ltb (TimeSeries_String b) (TimeSeries_String a) = false)
    (Timeseries wreq').

(** ** Reasoning rules for the monad *)

Section Rules.

Context {A B : Type}.
Implicit Types (m : M A) (k : A → M B).

Lemma bind_Ok m k s b s' :
  bind m k s = (Ok b, s') →
  ∃ a s1, m s = (Ok a, s1) ∧ k a s1 = (Ok b, s').
Proof.
  unfold bind. destruct (m s) as [[a|e|msg] s1]; intros H; try discriminate.
  by exists a, s1.
Qed.

Lemma bind_Err m k s e s' :
  bind m k s = (Err e, s') →
  m s = (Err e, s') ∨ ∃ a s1, m s = (Ok a, s1) ∧ k a s1 = (Err e, s').
Proof.
  unfold bind. destruct (m s) as [[a|e0|msg] s1]; intros H; try discriminate.
  - right. by exists a, s1.
  - left. congruence.
Qed.

Lemma bind_Panic m k s msg s' :
  bind m k s = (Panic msg, s') →
  m s = (Panic msg, s') ∨ ∃ a s1, m s = (Ok a, s1) ∧ k a s1 = (Panic msg, s').
Proof.
  unfold bind. destruct (m s) as [[a|e0|msg0] s1]; intros H; try discriminate.
  - right. by exists a, s1.
  - left. congruence.
Qed.

Lemma bind_step m k s a s1 : m s = (Ok a, s1) → bind m k s = k a s1.
Proof. unfold bind. by intros ->. Qed.

Lemma emits_bind P m k :
  emits P m → (∀ a, emits P (k a)) → emits P (bind m k).
Proof.
  intros Hm Hk s. destruct (Hm s) as (n1 & Ha & Hn1).
  unfold bind. destruct (m s) as [[a|e|msg] s1]; simpl in *; eauto.
  destruct (Hk a s1) as (n2 & Hb & Hn2).
  exists (n1 ++ n2). split; [|by apply Forall_app].
  unfold appended in *. by rewrite Hb, Ha, app_assoc.
Qed.

End Rules.

Lemma emits_silent {A} P (m : M A) :
  (∀ s, trace (m s).2 = trace s) → emits P m.
Proof.
  intros H s. exists []. split; [|constructor].
  unfold appended. by rewrite H, app_nil_r.
Qed.

Lemma emits_ret {A} P (a : A) : emits P (ret a).
Proof. by apply emits_silent. Qed.

Lemma emits_panic {A} P msg : emits P (@panic A msg).
Proof. by apply emits_silent. Qed.

Lemma emits_call {A} P (r : result A) : emits P (call r).
Proof. apply emits_silent. intros s. by destruct r. Qed.

Lemma emits_event P e : P e → emits P (emit_event e).
Proof. intros H s. exists [e]. split; [done|]. by constructor. Qed.

Lemma emits_map_index P m k : emits P (map_index m k).
Proof.
  apply emits_silent. intros s. unfold map_index.
  destruct m as [l|]; [destruct (maps s !! l)|]; done.
Qed.

Lemma emits_map_assign P m k v : emits P (map_assign m k v).
Proof.
  apply emits_silent. intros s. unfold map_assign.
  destruct m as [l|]; [destruct (maps s !! l)|]; done.
Qed.

Lemma emits_map_delete P m k : emits P (map_delete m k).
Proof.
  apply emits_silent. intros s. unfold map_delete.
  destruct m as [l|]; [destruct (maps s !! l)|]; done.
Qed.

Lemma emits_map_alloc P g : emits P (map_alloc g).
Proof. by apply emits_silent. Qed.

Lemma emits_MapCopy P m : emits P (MapCopy m).
Proof.
  apply emits_silent. intros s. unfold MapCopy.
  destruct m as [l|]; [destruct (maps s !! l)|]; done.
Qed.

Lemma emits_Fingerprint_Copy P p : emits P (Fingerprint_Copy p).
Proof.
  apply emits_silent. intros s. unfold Fingerprint_Copy.
  destruct p as [l|]; [destruct (fingerprints s !! l)|]; done.
Qed.

Lemma emits_fingerprint_alloc P bs : emits P (fingerprint_alloc bs).
Proof. by apply emits_silent. Qed.

Create HintDb emits discriminated.
#[local] Hint Resolve emits_ret emits_panic emits_call emits_map_index
  emits_map_assign emits_map_delete emits_map_alloc emits_MapCopy
  emits_Fingerprint_Copy emits_fingerprint_alloc : emits.

(** Walks through a computation built from [bind], branching with the
    code. *)
Ltac emits_steps :=
  repeat first
    [ apply emits_bind; [|intros ?]
    | apply emits_event; simpl; try done
    | progress eauto with emits nocore
    | match goal with
      | |- emits _ (match ?x with _ => _ end) => destruct x
      | |- emits _ (if ?x then _ else _) => destruct x
      | |- emits _ (let '(_, _) := ?x in _) => destruct x
      end ].

(** ** Which events [build] can append *)

Section Events.

Context (w : World).

Lemma emits_resolveAttribute P inc m k v :
  emits P (resolveAttribute inc m k v).
Proof. unfold resolveAttribute. emits_steps. Qed.

Lemma emits_resolveAttributes P cfg m fl abs :
  emits P (resolveAttributes w cfg m fl abs).
Proof.
  unfold resolveAttributes.
  repeat (apply emits_bind; [apply emits_resolveAttribute|intros _]).
  apply emits_resolveAttribute.
Qed.

Lemma emits_logFailure P l t err :
  (∀ e, P (EvErrorf l t e)) → emits P (logFailure l t err).
Proof. intros H. unfold logFailure, Errorf. emits_steps. Qed.

Lemma emits_resolvePaths P f fl :
  (∀ l t e, P (EvErrorf l t e)) → emits P (resolvePaths w f fl).
Proof.
  intros H. unfold resolvePaths.
  apply emits_bind.
  - destruct (decide _); [|emits_steps].
    destruct (filepath_EvalSymlinks _ _).
    apply emits_bind; [by apply emits_logFailure|intros _; emits_steps].
  - intros resolved. destruct (filepath_Abs _ _).
    apply emits_bind; [by apply emits_logFailure|intros _; emits_steps].
Qed.

Lemma emits_offsetToEnd P r :
  (∀ n, P (EvStat n)) → emits P (offsetToEnd r).
Proof. intros H. unfold offsetToEnd. emits_steps. Qed.

Lemma emits_newFingerprint P f fl :
  (∀ n z, P (EvReadAt n z)) → emits P (newFingerprint f fl).
Proof. intros H. unfold newFingerprint, fingerprint_New. emits_steps. Qed.

Lemma emits_buildHeaderPhase P f hs r :
  (∀ c, P (EvPipelineBuild c)) → (∀ p, P (EvPipelineStart p)) →
  emits P (buildHeaderPhase w f hs r).
Proof. intros H1 H2. unfold buildHeaderPhase. emits_steps. Qed.

Lemma emits_build P b :
  (wantsHeader b → ∀ e, is_pipeline_event e = true → P e) →
  (is_Some (b_file b) → ∀ l t e, P (EvErrorf l t e)) →
  (is_Some (b_file b) → fromBeginning (b_factory b) = false →
     ∀ n, P (EvStat n)) →
  (is_Some (b_file b) → fp b = None → ∀ n z, P (EvReadAt n z)) →
  emits P (build w b).
Proof.
  intros Hpipe Hlog Hstat Hread. unfold build.
  apply emits_bind; [unfold buildLineSplitFunc; emits_steps|intros lsf].
  apply emits_bind; [emits_steps|intros enc].
  apply emits_bind.
  - unfold buildPhase.
    destruct (f_headerSettings (b_factory b)) as [hs|] eqn:Hhs; [|emits_steps].
    destruct (headerFinalized b) eqn:Hfin; [emits_steps|].
    assert (wantsHeader b) as Hw by (split; [by rewrite Hhs|done]).
    apply emits_buildHeaderPhase; intros; by apply Hpipe.
  - intros r. destruct (b_file b) as [fl|] eqn:Hfile; [|emits_steps].
    unfold buildWithFile.
    apply emits_bind; [apply emits_resolvePaths; by apply Hlog|intros abs].
    apply emits_bind; [apply emits_resolveAttributes|intros _].
    unfold startAndFingerprint. apply emits_bind.
    + destruct (fromBeginning (b_factory b)) eqn:Hfb; [emits_steps|].
      apply emits_offsetToEnd. by apply Hstat.
    + intros r'. destruct (fp b) eqn:Hfp; [emits_steps|].
      apply emits_bind; [|intros ?; emits_steps].
      apply emits_newFingerprint. by apply Hread.
Qed.

End Events.

(** ** The attribute blocks on the store *)

Lemma with_maps_id s l g : maps s !! l = Some g → with_maps s (<[l := g]> (maps s)) = s.
Proof. intros H. destruct s. unfold with_maps. simpl in *. by rewrite insert_id. Qed.

Lemma resolveAttribute_live inc l k v s g :
  maps s !! l = Some g →
  resolveAttribute inc (Some l) k v s
  = (Ok tt, with_maps s (<[l := resolved inc k v g]> (maps s))).
Proof.
  intros Hg. unfold resolveAttribute, resolved. destruct inc.
  - unfold map_assign. by rewrite Hg.
  - unfold bind, map_index. rewrite Hg.
    destruct (decide _).
    + unfold map_delete. by rewrite Hg.
    + unfold ret. by rewrite with_maps_id.
Qed.

Lemma resolveAttribute_nil inc k v s :
  resolveAttribute inc None k v s
  = (if inc then Panic "assignment to entry in nil map" else Ok tt, s).
Proof. unfold resolveAttribute. by destruct inc. Qed.

Lemma resolveAttribute_dangling inc l k v s :
  maps s !! l = None →
  ∃ msg, resolveAttribute inc (Some l) k v s = (Panic msg, s).
Proof.
  intros Hg. unfold resolveAttribute. destruct inc.
  - unfold map_assign. rewrite Hg. eauto.
  - unfold bind, map_index. rewrite Hg. eauto.
Qed.

Section Attributes.

Context (w : World).

Lemma resolveAttributes_live cfg l fl abs s g :
  maps s !! l = Some g →
  resolveAttributes w cfg (Some l) fl abs s
  = (Ok tt, with_maps s (<[l := resolvedAll w cfg fl abs g]> (maps s))).
Proof.
  intros Hg. unfold resolveAttributes, resolvedAll.
  erewrite bind_step; [|by apply resolveAttribute_live].
  erewrite bind_step; [|apply resolveAttribute_live; simpl; apply lookup_insert_eq].
  erewrite bind_step; [|apply resolveAttribute_live; simpl; apply lookup_insert_eq].
  erewrite resolveAttribute_live; [|simpl; apply lookup_insert_eq].
  unfold with_maps. simpl. by rewrite !insert_insert_eq.
Qed.

Lemma resolveAttributes_nil cfg fl abs s :
  (noAttributes cfg ∧ resolveAttributes w cfg None fl abs s = (Ok tt, s)) ∨
  (¬ noAttributes cfg ∧
   ∃ msg, resolveAttributes w cfg None fl abs s = (Panic msg, s)).
Proof.
  unfold resolveAttributes, noAttributes, bind.
  rewrite !resolveAttribute_nil.
  destruct (includeFileName cfg), (includeFilePath cfg),
    (includeFileNameResolved cfg), (includeFilePathResolved cfg);
    (by left) || (right; split; [by intros (?&?&?&?)|eauto]).
Qed.

Lemma resolveAttributes_dangling cfg l fl abs s :
  maps s !! l = None →
  ∃ msg, resolveAttributes w cfg (Some l) fl abs s = (Panic msg, s).
Proof.
  intros Hg. unfold resolveAttributes, bind.
  destruct (resolveAttribute_dangling (includeFileName cfg) l (logFileName w)
              (anyString (filepath_Base w (Name fl))) s Hg) as [msg ->].
  eauto.
Qed.

(** ** Path resolution *)

Lemma with_trace_nil s : with_trace s (trace s ++ []) = s.
Proof. destruct s. unfold with_trace. simpl. by rewrite app_nil_r. Qed.

Lemma logFailure_eq l t err s :
  logFailure l t err s = (Ok tt, with_trace s (trace s ++ logged l t err)).
Proof.
  destruct err; simpl; [done|]. unfold ret. by rewrite with_trace_nil.
Qed.

Lemma resolvePaths_eq f fl s :
  resolvePaths w f fl s
  = (Ok (absName w fl), with_trace s (trace s ++ resolveLogs w f fl)).
Proof.
  unfold resolvePaths, absName, resolveLogs, resolvedName, bind.
  destruct (decide (GOOS w ≠ "windows")).
  - destruct (filepath_EvalSymlinks w (Name fl)) as [rs e1]. simpl.
    rewrite logFailure_eq. simpl.
    destruct (filepath_Abs w rs) as [ab e2]. simpl.
    rewrite logFailure_eq. unfold ret, with_trace. simpl.
    by rewrite app_assoc.
  - unfold ret. destruct (filepath_Abs w (Name fl)) as [ab e2]. simpl.
    by rewrite logFailure_eq.
Qed.

End Attributes.

(** ** The blocks of [build], outcome by outcome *)

Section Blocks.

Context (w : World).

Lemma buildPhase_normal b r s :
  ¬ wantsHeader b →
  buildPhase w b r s = (Ok (normalReader (b_factory b) r), s).
Proof.
  intros Hn. unfold buildPhase.
  destruct (f_headerSettings (b_factory b)) as [hs|] eqn:Hhs; [|done].
  destruct (headerFinalized b) eqn:Hfin; [done|].
  destruct Hn. split; [by rewrite Hhs|done].
Qed.

Lemma buildPhase_header b r s hs :
  f_headerSettings (b_factory b) = Some hs → headerFinalized b = false →
  let f := b_factory b in
  let cfg := headerPipelineConfig f hs in
  buildPhase w b r s =
    match pipeline_Config_Build w cfg (f_SugaredLogger f) with
    | Error e =>
        (Err (errorWrap "failed to build pipeline: " e),
         with_trace s (trace s ++ [EvPipelineBuild cfg]))
    | Value p =>
        (match DirectedPipeline_Start w p with
         | Some e => Err (errorWrap "failed to start header pipeline: " e)
         | None => Ok (headerReader f hs p r)
         end,
         with_trace s (trace s ++ [EvPipelineBuild cfg; EvPipelineStart p]))
    end.
Proof.
  intros Hhs Hfin. unfold buildPhase. rewrite Hhs, Hfin.
  unfold buildHeaderPhase, bind, emit_event, headerPipelineConfig. simpl.
  destruct (pipeline_Config_Build _ _ _) as [p|e]; simpl; [|done].
  unfold with_trace. simpl. rewrite <- app_assoc. simpl.
  by destruct (DirectedPipeline_Start w p).
Qed.

Lemma startAndFingerprint_cases b fl r s :
  file r = Some fl →
  let f := b_factory b in
  let out := startAndFingerprint b fl r s in
  maps out.2 = maps s ∧
  match out.1 with
  | Ok r' =>
      r' = set_Fingerprint (set_Offset r (startOffset f fl r)) (Fingerprint r') ∧
      (fromBeginning f = false → statErr fl = None) ∧
      match fp b with
      | Some l =>
          Fingerprint r' = Some l ∧ fingerprints out.2 = fingerprints s ∧
          appended s out.2 (statEvents f fl)
      | None =>
          Fingerprint r' = Some (fresh (dom (fingerprints s))) ∧
          fingerprints out.2 =
            <[fresh (dom (fingerprints s)) := capturedBytes f fl]> (fingerprints s) ∧
          0 ≤ fingerprintSize (f_readerConfig f) ∧ readErr fl = None ∧
          appended s out.2
            (statEvents f fl ++
             [EvReadAt (Name fl) (fingerprintSize (f_readerConfig f))])
      end
  | Err e =>
      fingerprints out.2 = fingerprints s ∧
      ((fromBeginning f = false ∧ statErr fl = Some e) ∨
       (fp b = None ∧ readErr fl = Some e ∧
        0 ≤ fingerprintSize (f_readerConfig f) ∧
        (fromBeginning f = false → statErr fl = None)))
  | Panic _ =>
      fp b = None ∧ fingerprintSize (f_readerConfig f) < 0
  end.
Proof.
  intros Hfile f. unfold startAndFingerprint, startOffset, statEvents,
    capturedBytes, appended, offsetToEnd, newFingerprint, fingerprint_New.
  fold f. rewrite Hfile.
  destruct r; simpl in *.
  destruct (fromBeginning f); simpl;
    [|destruct (statErr fl) as [e1|]; simpl;
      [split; [done|]; split; [done|]; by left|]];
    (destruct (fp b) as [l|]; simpl;
     [unfold set_Fingerprint, set_Offset; simpl;
      rewrite ?app_nil_r; done|]);
    (destruct (Z.ltb_spec (fingerprintSize (f_readerConfig f)) 0); simpl;
     [done|]);
    (destruct (readErr fl) as [e2|]; simpl;
     [split; [done|]; split; [done|]; right; done|]);
    (split; [done|]);
    unfold set_Fingerprint, set_Offset; simpl;
    rewrite <- ?app_assoc; done.
Qed.

Lemma buildWithFile_live b fl r s l g :
  fileAttributes b = Some l → maps s !! l = Some g →
  let f := b_factory b in
  buildWithFile w b fl r s =
  startAndFingerprint b fl (boundReader b fl r)
    (with_maps (with_trace s (trace s ++ resolveLogs w f fl))
       (<[l := resolvedAll w (f_readerConfig f) fl (absName w fl) g]> (maps s))).
Proof.
  intros Hl Hg f. unfold buildWithFile. fold f.
  erewrite bind_step; [|apply resolvePaths_eq].
  simpl. rewrite Hl.
  erewrite bind_step; [|by apply resolveAttributes_live].
  unfold boundReader. fold f. by rewrite Hl.
Qed.

Lemma buildWithFile_nil b fl r s :
  fileAttributes b = None →
  let f := b_factory b in
  (noAttributes (f_readerConfig f) ∧
   buildWithFile w b fl r s =
   startAndFingerprint b fl (boundReader b fl r)
     (with_trace s (trace s ++ resolveLogs w f fl))) ∨
  (¬ noAttributes (f_readerConfig f) ∧
   ∃ msg s', buildWithFile w b fl r s = (Panic msg, s')).
Proof.
  intros Hl f. unfold buildWithFile. fold f.
  erewrite bind_step; [|apply resolvePaths_eq].
  simpl. rewrite Hl.
  destruct (resolveAttributes_nil w (f_readerConfig f) fl (absName w fl)
              (with_trace s (trace s ++ resolveLogs w f fl)))
    as [[Hno Heq]|[Hno [msg Heq]]].
  - left. split; [done|]. erewrite bind_step; [|done].
    unfold boundReader. fold f. by rewrite Hl.
  - right. split; [done|]. exists msg. eexists. unfold bind. by rewrite Heq.
Qed.

Lemma buildWithFile_dangling b fl r s l :
  fileAttributes b = Some l → maps s !! l = None →
  ∃ msg s', buildWithFile w b fl r s = (Panic msg, s').
Proof.
  intros Hl Hg. unfold buildWithFile.
  erewrite bind_step; [|apply resolvePaths_eq].
  simpl. rewrite Hl.
  destruct (resolveAttributes_dangling w (f_readerConfig (b_factory b)) l fl
              (absName w fl)
              (with_trace s (trace s ++ resolveLogs w (b_factory b) fl)) Hg)
    as [msg Heq].
  exists msg. eexists. unfold bind. by rewrite Heq.
Qed.

End Blocks.

(** ** Successful runs of [build], taken apart *)

Section Success.

Context (w : World).

Lemma wantsHeader_dec b : {wantsHeader b} + {¬ wantsHeader b}.
Proof.
  unfold wantsHeader.
  destruct (f_headerSettings (b_factory b)) as [hs|];
    [|right; intros [[? ?] _]; discriminate].
  destruct (headerFinalized b); [right; by intros [_ ?]|left; eauto].
Qed.

Lemma buildLineSplitFunc_Ok b s lsf s' :
  buildLineSplitFunc b s = (Ok lsf, s') → lineSplitOf b lsf ∧ s' = s.
Proof.
  unfold buildLineSplitFunc, lineSplitOf.
  destruct (b_splitFunc b) as [sf|]; simpl.
  - unfold ret. intros [= <- <-]. done.
  - unfold call. destruct (splitterFactory_Build _ _); intros [= <- <-]; done.
Qed.

Lemma call_Ok {A} (c : result A) s a s' :
  call c s = (Ok a, s') → c = Value a ∧ s' = s.
Proof. unfold call. destruct c; intros [= <- <-]; done. Qed.

Lemma build_Ok b s r s' :
  build w b s = (Ok r, s') →
  ∃ lsf enc r1 s1,
    lineSplitOf b lsf ∧
    EncodingConfig_Build w (encodingConfig (b_factory b)) = Value enc ∧
    buildPhase w b (preparedReader b lsf enc) s = (Ok r1, s1) ∧
    match b_file b with
    | None =>
        r = set_SugaredLogger r1
              (With (f_SugaredLogger (b_factory b)) "path" "uninitialized") ∧
        s' = s1
    | Some fl => buildWithFile w b fl r1 s1 = (Ok r, s')
    end.
Proof.
  unfold build. intros H.
  apply bind_Ok in H as (lsf & s0 & Hlsf & H).
  apply buildLineSplitFunc_Ok in Hlsf as [Hlsf ->].
  apply bind_Ok in H as (enc & s0 & Henc & H).
  apply call_Ok in Henc as [Henc ->].
  apply bind_Ok in H as (r1 & s1 & Hphase & H).
  exists lsf, enc, r1, s1. repeat split; try done.
  destruct (b_file b); [done|].
  unfold ret in H. by injection H as <- <-.
Qed.

Lemma buildPhase_Ok b r0 s r1 s1 :
  buildPhase w b r0 s = (Ok r1, s1) →
  let f := b_factory b in
  (¬ wantsHeader b ∧ r1 = normalReader f r0 ∧ s1 = s) ∨
  (wantsHeader b ∧ ∃ hs p,
     f_headerSettings f = Some hs ∧
     pipeline_Config_Build w (headerPipelineConfig f hs) (f_SugaredLogger f)
       = Value p ∧
     DirectedPipeline_Start w p = None ∧
     r1 = headerReader f hs p r0 ∧
     s1 = with_trace s (trace s ++ [EvPipelineBuild (headerPipelineConfig f hs);
                                    EvPipelineStart p])).
Proof.
  intros H f. destruct (wantsHeader_dec b) as [Hw|Hn].
  - right. split; [done|]. destruct Hw as [[hs Hhs] Hfin].
    rewrite (buildPhase_header w b r0 s hs Hhs Hfin) in H. fold f in H.
    destruct (pipeline_Config_Build _ _ _) as [p|e] eqn:Hp; [|discriminate].
    destruct (DirectedPipeline_Start w p) eqn:Hstart; [discriminate|].
    injection H as <- <-. by exists hs, p.
  - left. rewrite (buildPhase_normal w b r0 s Hn) in H.
    by injection H as <- <-.
Qed.

Lemma buildWithFile_Ok b fl r1 s1 r s' :
  buildWithFile w b fl r1 s1 = (Ok r, s') →
  ∃ s2,
    startAndFingerprint b fl (boundReader b fl r1) s2 = (Ok r, s') ∧
    fingerprints s2 = fingerprints s1 ∧
    trace s2 = trace s1 ++ resolveLogs w (b_factory b) fl ∧
    attributesResolved w b fl s1 s2.
Proof.
  intros H. destruct (fileAttributes b) as [l|] eqn:Hl.
  - destruct (maps s1 !! l) as [g|] eqn:Hg.
    + rewrite (buildWithFile_live w b fl r1 s1 l g Hl Hg) in H.
      eexists. split; [exact H|]. repeat split; try done.
      right. exists l, g. by rewrite Hl.
    + destruct (buildWithFile_dangling w b fl r1 s1 l Hl Hg) as (m & s0 & Heq).
      congruence.
  - destruct (buildWithFile_nil w b fl r1 s1 Hl) as [[Hno Heq]|[_ (m & s0 & Heq)]];
      [|congruence].
    rewrite Heq in H. eexists. split; [exact H|]. repeat split; try done.
    left. by rewrite Hl.
Qed.

End Success.

(** ** The fields of a built Reader *)

Section Fields.

Context (w : World).

Lemma build_fields b s r s' :
  build w b s = (Ok r, s') →
  let f := b_factory b in
  HeaderFinalized r = headerFinalized b ∧
  file r = b_file b ∧
  FileAttributes r = fileAttributes b ∧
  Offset r = builtOffset b ∧
  r_readerConfig r = f_readerConfig f ∧
  lineSplitOf b (lineSplitFunc r) ∧
  (¬ wantsHeader b → normalPhase f r) ∧
  (wantsHeader b → headerPhase w f r s s').
Proof.
  intros H f. unfold builtOffset.
  apply build_Ok in H as (lsf & enc & r1 & s1 & Hlsf & Henc & Hphase & H).
  apply buildPhase_Ok in Hphase. fold f in Hphase.
  assert (∃ rest, r = match b_file b with
                      | Some fl =>
                          set_Fingerprint
                            (set_Offset (boundReader b fl r1)
                               (startOffset f fl (boundReader b fl r1)))
                            (Fingerprint r)
                      | None =>
                          set_SugaredLogger r1
                            (With (f_SugaredLogger f) "path" "uninitialized")
                      end ∧ appended s1 s' rest) as (rest & Hr & Hrest).
  { destruct (b_file b) as [fl|].
    - apply buildWithFile_Ok in H as (s2 & H & _ & Htr & _).
      pose proof (startAndFingerprint_cases b fl (boundReader b fl r1) s2 eq_refl)
        as [_ Hc].
      simpl in Hc. rewrite H in Hc. simpl in Hc. destruct Hc as (Hr & _ & Hfp).
      fold f in Hr.
      assert (∃ n, appended s2 s' n) as [n Hn]
        by (destruct (fp b);
            [destruct Hfp as (_ & _ & ?)|destruct Hfp as (_ & _ & _ & _ & ?)];
            by eexists).
      exists (resolveLogs w f fl ++ n). split; [done|].
      unfold appended in *. by rewrite Hn, Htr, app_assoc.
    - destruct H as [-> ->]. exists []. split; [done|].
      unfold appended. by rewrite app_nil_r. }
  destruct Hphase as [(Hn & -> & ->)|(Hw & hs & p & Hhs & Hp & Hst & -> & ->)].
  - rewrite Hr. unfold startOffset, normalPhase.
    destruct (b_file b) as [fl|]; simpl; split_and!;
      try done; try (by destruct (fromBeginning f)).
  - rewrite Hr. unfold startOffset.
    assert (appended s s' ([EvPipelineBuild (headerPipelineConfig f hs);
                            EvPipelineStart p] ++ rest)) as Happ.
    { unfold appended in *. rewrite Hrest. simpl. by rewrite <- app_assoc. }
    destruct (b_file b) as [fl|]; simpl; split_and!;
      try done; try (by destruct (fromBeginning f));
      intros _; exists hs, p; split_and!; try done; by exists rest.
Qed.

End Fields.

(** ** The factory entry points, reduced to [build] *)

Section Factory.

Context (w : World).

Lemma newReaderBuilder_eq f s :
  newReaderBuilder f s
  = (Ok (freshBuilder f (fresh (dom (maps s)))),
     with_maps s (<[fresh (dom (maps s)) := ∅]> (maps s))).
Proof. done. Qed.

Lemma newReader_eq f fl p s :
  newReader w f fl p s
  = build w (withFingerprint (withFile (freshBuilder f (fresh (dom (maps s)))) fl) p)
      (with_maps s (<[fresh (dom (maps s)) := ∅]> (maps s))).
Proof. done. Qed.

Lemma unsafeReader_eq f s :
  unsafeReader w f s
  = build w (freshBuilder f (fresh (dom (maps s))))
      (with_maps s (<[fresh (dom (maps s)) := ∅]> (maps s))).
Proof. done. Qed.

Lemma copy_Ok f old newFile s r s' :
  copy w f old newFile s = (Ok r, s') →
  ∃ bs g,
    bytes_at s (Fingerprint old) = Some bs ∧
    match FileAttributes old with
    | None => g = ∅
    | Some lm => (<[fresh (dom (maps s)) := ∅]> (maps s)) !! lm = Some g
    end ∧
    build w
      (copyBuilder f old newFile (Some (fresh (dom (fingerprints s))))
         (Some (fresh (dom (<[fresh (dom (maps s)) := ∅]> (maps s))))))
      (copyStore s bs g) = (Ok r, s').
Proof.
  unfold copy. intros H.
  apply bind_Ok in H as (b0 & s0 & Hb & H).
  rewrite newReaderBuilder_eq in Hb. injection Hb as <- <-.
  apply bind_Ok in H as (p & s1 & Hp & H).
  unfold Fingerprint_Copy in Hp.
  destruct (Fingerprint old) as [lfp|] eqn:Hfp; [|discriminate]. simpl in Hp.
  destruct (fingerprints s !! lfp) as [bs|] eqn:Hbs; [|discriminate].
  injection Hp as <- <-.
  apply bind_Ok in H as (attrs & s2 & Hm & H).
  unfold MapCopy in Hm. simpl in Hm.
  exists bs.
  destruct (FileAttributes old) as [lm|] eqn:Hlm.
  - destruct (_ !! lm) as [g|] eqn:Hg; [|discriminate].
    injection Hm as <- <-. by exists g.
  - injection Hm as <- <-. by exists ∅.
Qed.

Lemma emits_build_no_emit b : emits (λ e, is_emit_event e = false) (build w b).
Proof.
  apply emits_build; try done. intros _ e. by destruct e.
Qed.

Lemma emits_build_no_pipeline b :
  ¬ wantsHeader b → emits (λ e, is_pipeline_event e = false) (build w b).
Proof. intros Hn. by apply emits_build. Qed.

Lemma emits_since {A} P (m : M A) s out s' :
  emits P m → m s = (out, s') → ∃ new, appended s s' new ∧ Forall P new.
Proof. intros Hm Heq. specialize (Hm s). by rewrite Heq in Hm. Qed.

Lemma finalized_not_wantsHeader b :
  headerFinalized b = true ∨ f_headerSettings (b_factory b) = None →
  ¬ wantsHeader b.
Proof.
  intros [Hf|Hn] [[hs Hhs] Hfin]; congruence.
Qed.

End Factory.

(** ** What a computation leaves untouched *)

Lemma keeps_bind {A B X} (proj : state → X) (m : M A) (k : A → M B) :
  keeps proj m → (∀ a, keeps proj (k a)) → keeps proj (bind m k).
Proof.
  intros Hm Hk s. specialize (Hm s). unfold bind.
  destruct (m s) as [[a|e|msg] s1]; simpl in *; try done.
  by rewrite Hk.
Qed.

Lemma keeps_ret {A X} (proj : state → X) (a : A) : keeps proj (ret a).
Proof. done. Qed.

Lemma keeps_call {A X} (proj : state → X) (c : result A) : keeps proj (call c).
Proof. intros s. by destruct c. Qed.

Lemma keeps_panic {A X} (proj : state → X) msg : keeps proj (@panic A msg).
Proof. done. Qed.

Lemma keeps_event_fingerprints e : keeps fingerprints (emit_event e).
Proof. done. Qed.

Lemma keeps_event_maps e : keeps maps (emit_event e).
Proof. done. Qed.

Lemma keeps_fingerprints_map_index m k : keeps fingerprints (map_index m k).
Proof.
  intros s. unfold map_index.
  destruct m as [l|]; [destruct (maps s !! l)|]; done.
Qed.

Lemma keeps_fingerprints_map_assign m k v : keeps fingerprints (map_assign m k v).
Proof.
  intros s. unfold map_assign.
  destruct m as [l|]; [destruct (maps s !! l)|]; done.
Qed.

Lemma keeps_fingerprints_map_delete m k : keeps fingerprints (map_delete m k).
Proof.
  intros s. unfold map_delete.
  destruct m as [l|]; [destruct (maps s !! l)|]; done.
Qed.

Create HintDb keeps discriminated.
#[local] Hint Resolve keeps_ret keeps_call keeps_panic keeps_event_fingerprints
  keeps_event_maps keeps_fingerprints_map_index keeps_fingerprints_map_assign
  keeps_fingerprints_map_delete : keeps.

Ltac keeps_steps :=
  repeat first
    [ apply keeps_bind; [|intros ?]
    | progress eauto with keeps nocore
    | match goal with
      | |- keeps _ (match ?x with _ => _ end) => destruct x
      | |- keeps _ (if ?x then _ else _) => destruct x
      | |- keeps _ (let '(_, _) := ?x in _) => destruct x
      end ].

Section Frames.

Context (w : World).

Lemma keeps_buildPhase {X} (proj : state → X) b r :
  (∀ e, keeps proj (emit_event e)) → keeps proj (buildPhase w b r).
Proof.
  intros He. unfold buildPhase, buildHeaderPhase.
  destruct (f_headerSettings _); [destruct (headerFinalized b)|];
    keeps_steps.
Qed.

Lemma keeps_fingerprints_resolveAttributes cfg m fl abs :
  keeps fingerprints (resolveAttributes w cfg m fl abs).
Proof. unfold resolveAttributes, resolveAttribute. keeps_steps. Qed.

Lemma keeps_fingerprints_resolvePaths f fl :
  keeps fingerprints (resolvePaths w f fl).
Proof. unfold resolvePaths, logFailure, Errorf. keeps_steps. Qed.

Lemma keeps_fingerprints_offsetToEnd r : keeps fingerprints (offsetToEnd r).
Proof. unfold offsetToEnd. keeps_steps. Qed.

(** With a fingerprint supplied, or with no file, [build] leaves the
    fingerprints in the store as they are, whatever its outcome. *)
Lemma keeps_fingerprints_build b :
  is_Some (fp b) ∨ b_file b = None → keeps fingerprints (build w b).
Proof.
  intros Hb. unfold build.
  apply keeps_bind; [unfold buildLineSplitFunc; keeps_steps|intros lsf].
  apply keeps_bind; [keeps_steps|intros enc].
  apply keeps_bind; [by apply keeps_buildPhase|intros r].
  destruct (b_file b) as [fl|]; [|keeps_steps].
  destruct Hb as [[l Hl]|?]; [|done].
  unfold buildWithFile, startAndFingerprint. rewrite Hl.
  apply keeps_bind; [apply keeps_fingerprints_resolvePaths|intros abs].
  apply keeps_bind; [apply keeps_fingerprints_resolveAttributes|intros _].
  apply keeps_bind; [|intros ?; keeps_steps].
  destruct (fromBeginning _); [keeps_steps|apply keeps_fingerprints_offsetToEnd].
Qed.

(** With no file, [build] leaves the maps in the store as they are. *)
Lemma keeps_maps_build b : b_file b = None → keeps maps (build w b).
Proof.
  intros Hb. unfold build.
  apply keeps_bind; [unfold buildLineSplitFunc; keeps_steps|intros lsf].
  apply keeps_bind; [keeps_steps|intros enc].
  apply keeps_bind; [by apply keeps_buildPhase|intros r].
  rewrite Hb. keeps_steps.
Qed.

(** ** Failing and panicking runs of [build], taken apart *)

Lemma buildLineSplitFunc_cases b s :
  (∃ lsf, lineSplitOf b lsf ∧ buildLineSplitFunc b s = (Ok lsf, s)) ∨
  (∃ e, b_splitFunc b = None ∧
        splitterFactory_Build (f_splitterFactory (b_factory b))
          (maxLogSize (f_readerConfig (b_factory b))) = Error e ∧
        buildLineSplitFunc b s = (Err e, s)).
Proof.
  unfold buildLineSplitFunc, lineSplitOf.
  destruct (b_splitFunc b) as [sf|]; [left; by eexists|].
  destruct (splitterFactory_Build _ _) as [lsf|e]; [left|right]; by eexists.
Qed.

Lemma buildPhase_cases b r0 s :
  let f := b_factory b in
  (∃ r1 s1, buildPhase w b r0 s = (Ok r1, s1)) ∨
  (∃ hs e s1, wantsHeader b ∧ f_headerSettings f = Some hs ∧
              pipelineFailure w f hs e ∧ buildPhase w b r0 s = (Err e, s1)).
Proof.
  intros f. destruct (wantsHeader_dec b) as [[[hs Hhs] Hfin]|Hn].
  - rewrite (buildPhase_header w b r0 s hs Hhs Hfin). fold f.
    destruct (pipeline_Config_Build _ _ _) as [p|e] eqn:Hp.
    + destruct (DirectedPipeline_Start w p) as [e|] eqn:Hst.
      * right. exists hs, (errorWrap "failed to start header pipeline: " e).
        eexists. split_and!;
          [split; [by rewrite Hhs|done] | done | right; by exists p, e | done].
      * left. by eexists _, _.
    + right. exists hs, (errorWrap "failed to build pipeline: " e).
      eexists. split_and!;
        [split; [by rewrite Hhs|done] | done | left; by exists e | done].
  - left. rewrite (buildPhase_normal w b r0 s Hn). by eexists _, _.
Qed.

Lemma buildWithFile_cases b fl r1 s1 :
  match (buildWithFile w b fl r1 s1).1 with
  | Ok _ => True
  | Err e =>
      (fromBeginning (b_factory b) = false ∧ statErr fl = Some e) ∨
      (fp b = None ∧ readErr fl = Some e)
  | Panic _ =>
      (fp b = None ∧ fingerprintSize (f_readerConfig (b_factory b)) < 0) ∨
      map_at s1 (fileAttributes b) = None
  end.
Proof.
  assert (∀ s2, match (startAndFingerprint b fl (boundReader b fl r1) s2).1 with
                | Ok _ => True
                | Err e =>
                    (fromBeginning (b_factory b) = false ∧ statErr fl = Some e) ∨
                    (fp b = None ∧ readErr fl = Some e)
                | Panic _ =>
                    (fp b = None ∧
                     fingerprintSize (f_readerConfig (b_factory b)) < 0) ∨
                    map_at s1 (fileAttributes b) = None
                end) as Hstart.
  { intros s2.
    pose proof (startAndFingerprint_cases b fl (boundReader b fl r1) s2 eq_refl)
      as [_ Hc]. simpl in Hc.
    destruct (startAndFingerprint b fl (boundReader b fl r1) s2) as [[r|e|msg] s3];
      simpl in *; [done| |by left].
    destruct Hc as (_ & [?|(?&?&_)]); [by left|by right]. }
  destruct (fileAttributes b) as [l|] eqn:Hl.
  - destruct (maps s1 !! l) as [g|] eqn:Hg.
    + rewrite (buildWithFile_live w b fl r1 s1 l g Hl Hg). apply Hstart.
    + destruct (buildWithFile_dangling w b fl r1 s1 l Hl Hg) as (m & s0 & ->).
      simpl. by right.
  - destruct (buildWithFile_nil w b fl r1 s1 Hl) as [[_ ->]|[_ (m & s0 & ->)]].
    + apply Hstart.
    + simpl. by right.
Qed.

Lemma build_cases b s :
  match (build w b s).1 with
  | Ok _ => True
  | Err e => errorSource w b e
  | Panic _ => panicSource b s
  end.
Proof.
  unfold build, errorSource, panicSource.
  destruct (buildLineSplitFunc_cases b s) as [(lsf & _ & Hl)|(e & Hn & He & Hl)].
  2: { unfold bind at 1. rewrite Hl. simpl. by left. }
  rewrite (bind_step _ _ _ _ _ Hl).
  unfold bind at 1, call.
  destruct (EncodingConfig_Build _ _) as [enc|e] eqn:Henc; simpl;
    [|right; by left].
  destruct (buildPhase_cases b (set_encoding
              (set_lineSplitFunc (readerLiteral b) lsf) (Some enc)) s)
    as [(r1 & s1 & Hp)|(hs & e & s1 & Hw & Hhs & Hf & Hp)].
  2: { unfold bind. rewrite Hp. simpl. right. right. left. by exists hs. }
  rewrite (bind_step _ _ _ _ _ Hp).
  destruct (b_file b) as [fl|] eqn:Hfile; [|done].
  assert (maps s1 = maps s) as Hmaps.
  { pose proof (keeps_buildPhase maps b
                  (set_encoding (set_lineSplitFunc (readerLiteral b) lsf)
                     (Some enc)) keeps_event_maps s) as Hk.
    by rewrite Hp in Hk. }
  pose proof (buildWithFile_cases b fl r1 s1) as Hc.
  destruct (buildWithFile w b fl r1 s1) as [[r|e|msg] s2]; simpl in *; [done| |].
  - right. right. right. destruct Hc as [[? ?]|[? ?]]; [left|right]; by exists fl.
  - exists fl. split; [done|]. unfold map_at in *. by rewrite <- Hmaps.
Qed.

End Frames.

(** * The claims *)

Section Claims.

Context (w : World).

(** C1, as the code behaves where it departs from the claim: with
    [fromBeginning] off, the successor that [copy] returns on a six-byte file
    has Offset 6, although the Reader it continues had Offset 2; the same
    call with [fromBeginning] on returns a successor with Offset 2. *)
Theorem copy_offset_moved_to_end :
  ∃ r s' r0 s0,
    copy ex_world (ex_plainFactory false) (ex_old false) (Some ex_file)
      (ex_store ex_attrs) = (Ok r, s') ∧
    copy ex_world (ex_plainFactory true) (ex_old false) (Some ex_file)
      (ex_store ex_attrs) = (Ok r0, s0) ∧
    Offset (ex_old false) = 2 ∧ Offset r = 6 ∧ Offset r0 = 2.
Proof.
  eexists _, _, _, _. split; [vm_compute; reflexivity|].
  split; [vm_compute; reflexivity|]. done.
Qed.

(** With [fromBeginning] on, or with no file to bind, [copy] does carry the
    old Offset over; otherwise the Offset is the length of the new file. *)
Lemma copy_Offset f old newFile s r s' :
  copy w f old newFile s = (Ok r, s') →
  Offset r = match newFile with
             | Some fl => if fromBeginning f then Offset old
                          else Z.of_nat (length (contents fl))
             | None => Offset old
             end.
Proof.
  intros H. apply copy_Ok in H as (bs & g & _ & _ & H).
  by apply build_fields in H as (_ & _ & _ & -> & _).
Qed.

(** C2: header finalization is one-shot.  A successor copied from a Reader
    with [HeaderFinalized = true] has [HeaderFinalized = true], is in the
    normal phase, and no header pipeline was built or started for it; and
    any [build] with [headerFinalized = true] or with no header settings
    builds and starts no header pipeline, whatever its outcome, and returns
    only Readers that use the line split function and the emit function. *)
Theorem header_finalization_one_shot f old newFile s r s' b sb :
  HeaderFinalized old = true →
  copy w f old newFile s = (Ok r, s') →
  headerFinalized b = true ∨ f_headerSettings (b_factory b) = None →
  (HeaderFinalized r = true ∧ normalPhase f r ∧
   ∃ new, appended s s' new ∧ Forall (λ e, is_pipeline_event e = false) new) ∧
  ((∃ new, appended sb (build w b sb).2 new ∧
           Forall (λ e, is_pipeline_event e = false) new) ∧
   ∀ rb, (build w b sb).1 = Ok rb →
         HeaderFinalized rb = headerFinalized b ∧ normalPhase (b_factory b) rb).
Proof.
  intros Hold Hcopy Hb. split.
  - apply copy_Ok in Hcopy as (bs & g & _ & _ & H).
    set (cb := copyBuilder _ _ _ _ _) in H.
    assert (¬ wantsHeader cb) as Hn
      by (apply finalized_not_wantsHeader; by left).
    pose proof (emits_since _ _ _ _ _ (emits_build_no_pipeline w cb Hn) H)
      as (new & Hnew & Hall).
    apply build_fields in H as (Hfin & _ & _ & _ & _ & _ & Hnormal & _).
    split; [by rewrite Hfin|]. split; [by apply Hnormal|].
    by exists new.
  - apply finalized_not_wantsHeader in Hb. split.
    + apply (emits_build_no_pipeline w b Hb sb).
    + intros rb Hrb. destruct (build w b sb) as [out sb'] eqn:Hbuild.
      simpl in Hrb. subst out.
      apply build_fields in Hbuild as (Hfin & _ & _ & _ & _ & _ & Hnormal & _).
      split; [done|by apply Hnormal].
Qed.

(** C3: a built Reader starts in the header phase (header split function,
    [consumeHeaderLine], header pipeline built and started) exactly when
    header settings are configured and [headerFinalized] is false; in every
    other case it starts in the normal phase (line split function, emit
    function, no pipeline). *)
Theorem build_starting_phase b s r s' :
  build w b s = (Ok r, s') →
  (headerPhase w (b_factory b) r s s' ↔ wantsHeader b) ∧
  (normalPhase (b_factory b) r ↔ ¬ wantsHeader b) ∧
  (¬ wantsHeader b →
   ∃ new, appended s s' new ∧ Forall (λ e, is_pipeline_event e = false) new).
Proof.
  intros H.
  pose proof (build_fields w b s r s' H) as (_ & _ & _ & _ & _ & _ & Hn & Hh).
  split_and!.
  - split; [|done]. intros (hs & p & _ & _ & Hproc & _).
    destruct (wantsHeader_dec b) as [|Hno]; [done|].
    destruct (Hn Hno) as (_ & Hproc' & _). congruence.
  - split; [|done]. intros (_ & Hproc & _) Hw.
    destruct (Hh Hw) as (hs & p & _ & _ & Hproc' & _). congruence.
  - intros Hno. exact (emits_since _ _ _ _ _ (emits_build_no_pipeline w b Hno) H).
Qed.

(** C4: when the header pipeline must be created (settings present, header
    not finalized) and its Build or its Start fails, [build] returns an
    error and no Reader; once the split function and the encoding are
    obtained, the error is the wrapped pipeline failure. *)
Theorem pipeline_failure_fails_build b s hs e :
  f_headerSettings (b_factory b) = Some hs →
  headerFinalized b = false →
  pipelineFailure w (b_factory b) hs e →
  (∃ e', (build w b s).1 = Err e') ∧
  (∀ lsf enc,
     lineSplitOf b lsf →
     EncodingConfig_Build w (encodingConfig (b_factory b)) = Value enc →
     (build w b s).1 = Err e).
Proof.
  intros Hhs Hfin Hfail.
  assert (∀ r0 s0, (buildPhase w b r0 s0).1 = Err e) as Hphase.
  { intros r0 s0. rewrite (buildPhase_header w b r0 s0 hs Hhs Hfin).
    destruct Hfail as [(e0 & -> & ->)|(p & e0 & -> & -> & ->)]; done. }
  assert (∀ r0 s0, bind (buildPhase w b r0)
            (λ r, match b_file b with
                  | Some fl => buildWithFile w b fl r
                  | None => ret (set_SugaredLogger r
                                   (With (f_SugaredLogger (b_factory b))
                                      "path" "uninitialized"))
                  end) s0 = (Err e, (buildPhase w b r0 s0).2)) as Hrest.
  { intros r0 s0. specialize (Hphase r0 s0). unfold bind.
    destruct (buildPhase w b r0 s0) as [out s1]. simpl in *. by subst out. }
  split.
  - unfold build, bind at 1, buildLineSplitFunc.
    destruct (b_splitFunc b) as [sf|]; simpl.
    + unfold bind at 1.
      destruct (EncodingConfig_Build _ _) as [enc|e1]; simpl; [|eauto].
      rewrite Hrest. eauto.
    + destruct (splitterFactory_Build _ _) as [lsf|e1]; simpl; [|eauto].
      unfold bind at 1.
      destruct (EncodingConfig_Build _ _) as [enc|e2]; simpl; [|eauto].
      rewrite Hrest. eauto.
  - intros lsf enc Hlsf Henc.
    unfold build, bind at 1, buildLineSplitFunc. unfold lineSplitOf in Hlsf.
    destruct (b_splitFunc b) as [sf|]; simpl.
    + unfold bind at 1. rewrite Henc. simpl. by rewrite Hrest.
    + rewrite Hlsf. simpl. unfold bind at 1. rewrite Henc. simpl.
      by rewrite Hrest.
Qed.

(** C5: a fresh Reader that [newReader] builds on a bound file has Offset 0
    when [fromBeginning] is set and Offset equal to the file's current length
    when it is not; nothing is emitted during the construction. *)
Theorem newReader_start_offset f fl p s r s' :
  newReader w f (Some fl) p s = (Ok r, s') →
  Offset r = (if fromBeginning f then 0 else Z.of_nat (length (contents fl))) ∧
  ∃ new, appended s s' new ∧ Forall (λ e, is_emit_event e = false) new.
Proof.
  intros H. split.
  - rewrite newReader_eq in H.
    by apply build_fields in H as (_ & _ & _ & -> & _).
  - refine (emits_since _ (newReader w f (Some fl) p) _ _ _ _ H).
    unfold newReader, newReaderBuilder. apply emits_bind; [emits_steps|].
    intros b. apply emits_build_no_emit.
Qed.

End Claims.

Section FileClaims.

Context (w : World).

Lemma resolved_lookup_ne inc key v g k :
  k ≠ key → resolved inc key v g !! k = g !! k.
Proof.
  intros Hne. unfold resolved. destruct inc; [by rewrite lookup_insert_ne|].
  destruct (decide _); [by rewrite lookup_delete_ne|done].
Qed.

Lemma resolved_lookup_eq inc key v g :
  resolved inc key v g !! key =
  if inc then Some v
  else if decide (default anyNil (g !! key) ≠ anyNil) then None else g !! key.
Proof.
  unfold resolved. destruct inc; [by rewrite lookup_insert_eq|].
  destruct (decide _); [by rewrite lookup_delete_eq|done].
Qed.

Lemma resolvedAll_other cfg fl abs g k :
  k ∉ attributeKeys w → resolvedAll w cfg fl abs g !! k = g !! k.
Proof.
  unfold attributeKeys. intros Hk. unfold resolvedAll.
  rewrite !resolved_lookup_ne; [done|..]; intros ->; apply Hk; set_solver.
Qed.

Lemma resolvedAll_lookup cfg fl g inc key v :
  NoDup (attributeKeys w) →
  (inc, key, v) ∈ fileAttributeTable w cfg fl →
  resolvedAll w cfg fl (absName w fl) g !! key = resolved inc key v g !! key.
Proof.
  unfold attributeKeys, fileAttributeTable. intros Hnd Hin.
  apply NoDup_cons in Hnd as [H1 Hnd]. apply NoDup_cons in Hnd as [H2 Hnd].
  apply NoDup_cons in Hnd as [H3 _].
  apply not_elem_of_cons in H1 as [? H1]. apply not_elem_of_cons in H1 as [? H1].
  apply not_elem_of_cons in H1 as [? _].
  apply not_elem_of_cons in H2 as [? H2]. apply not_elem_of_cons in H2 as [? _].
  apply not_elem_of_cons in H3 as [? _].
  unfold resolvedAll.
  repeat (apply elem_of_cons in Hin as [[= -> -> ->]|Hin]);
    [..|by apply elem_of_nil in Hin].
  - by rewrite !resolved_lookup_ne by done.
  - rewrite !resolved_lookup_ne by done.
    rewrite !resolved_lookup_eq. by rewrite !resolved_lookup_ne by done.
  - rewrite !resolved_lookup_ne by done.
    rewrite !resolved_lookup_eq. by rewrite !resolved_lookup_ne by done.
  - rewrite !resolved_lookup_eq. by rewrite !resolved_lookup_ne by done.
Qed.

(** A successful [build] on a bound file, state by state. *)
Lemma build_Ok_file b fl s r s' :
  b_file b = Some fl →
  build w b s = (Ok r, s') →
  ∃ r1 s1 s2 n1,
    fingerprints s1 = fingerprints s ∧ maps s1 = maps s ∧ appended s s1 n1 ∧
    fingerprints s2 = fingerprints s1 ∧
    trace s2 = trace s1 ++ resolveLogs w (b_factory b) fl ∧
    attributesResolved w b fl s1 s2 ∧
    startAndFingerprint b fl (boundReader b fl r1) s2 = (Ok r, s').
Proof.
  intros Hfile H.
  apply build_Ok in H as (lsf & enc & r1 & s1 & _ & _ & Hphase & H).
  rewrite Hfile in H.
  apply buildWithFile_Ok in H as (s2 & H & Hfp2 & Htr2 & Hattr).
  pose proof (keeps_buildPhase w fingerprints b (preparedReader b lsf enc)
                keeps_event_fingerprints s) as Hk1.
  pose proof (keeps_buildPhase w maps b (preparedReader b lsf enc)
                keeps_event_maps s) as Hk2.
  rewrite Hphase in Hk1, Hk2. simpl in *.
  assert (∃ n1, appended s s1 n1) as [n1 Hn1].
  { apply buildPhase_Ok in Hphase as [(_ & _ & ->)|(_ & hs & p & _ & _ & _ & _ & ->)].
    - exists []. unfold appended. by rewrite app_nil_r.
    - by eexists. }
  by exists r1, s1, s2, n1.
Qed.

Lemma build_attributes b fl s r s' :
  b_file b = Some fl →
  build w b s = (Ok r, s') →
  attributesResolved w b fl s s'.
Proof.
  intros Hfile H.
  apply (build_Ok_file b fl) in H
    as (r1 & s1 & s2 & n1 & _ & Hm1 & _ & _ & _ & Hattr & H); [|done].
  pose proof (startAndFingerprint_cases b fl (boundReader b fl r1) s2 eq_refl)
    as [Hm2 _].
  simpl in Hm2. rewrite H in Hm2. simpl in Hm2.
  unfold attributesResolved in *. rewrite Hm2. by rewrite Hm1 in Hattr.
Qed.


End FileClaims.


Section StoreClaims.

Context (w : World).





Lemma build_maps_frame b s r s' l :
  build w b s = (Ok r, s') →
  fileAttributes b ≠ Some l →
  maps s' !! l = maps s !! l.
Proof.
  intros H Hne. destruct (b_file b) as [fl|] eqn:Hfile.
  - apply (build_attributes w b fl) in H; [|done].
    destruct H as [(_ & _ & ->)|(l' & g & Hl & _ & ->)]; [done|].
    rewrite lookup_insert_ne; [done|congruence].
  - pose proof (keeps_maps_build w b Hfile s) as Hk.
    rewrite H in Hk. simpl in Hk. by rewrite Hk.
Qed.

Lemma build_attrs_other b s r s' k :
  build w b s = (Ok r, s') →
  k ∉ attributeKeys w →
  index s' (fileAttributes b) k = index s (fileAttributes b) k.
Proof.
  intros H Hk. destruct (b_file b) as [fl|] eqn:Hfile.
  - apply (build_attributes w b fl) in H; [|done].
    destruct H as [(-> & _ & _)|(l' & g & -> & Hg & Hs')]; [done|].
    unfold index. rewrite Hs', Hg, lookup_insert_eq.
    by rewrite resolvedAll_other.
  - pose proof (keeps_maps_build w b Hfile s) as Hm. rewrite H in Hm.
    unfold index. simpl in Hm. by rewrite Hm.
Qed.


End StoreClaims.

Section ErrorClaims.

Context (w : World).

(** C9: whatever [filepath.EvalSymlinks] and [filepath.Abs] return, [build]
    on a bound file returns a Reader once its other steps succeed; a failed
    resolution is only logged. *)
Theorem resolution_failures_not_fatal b fl s :
  b_file b = Some fl →
  otherStepsSucceed w b fl s →
  let f := b_factory b in
  ∃ r s' new,
    build w b s = (Ok r, s') ∧ appended s s' new ∧
    (∀ e, GOOS w ≠ "windows" →
          (filepath_EvalSymlinks w (Name fl)).2 = Some e →
          EvErrorf (f_SugaredLogger f) "resolve symlinks: %w" e ∈ new) ∧
    (∀ e, (filepath_Abs w (resolvedName w fl)).2 = Some e →
          EvErrorf (f_SugaredLogger f) "resolve abs: %w" e ∈ new).
Proof.
  intros Hfile (Hsplit & [enc Henc] & Hpipe & Hlive & Hstat & Hread) f.
  pose proof (build_cases w b s) as Hc.
  destruct (build w b s) as [[r|e|msg] s'] eqn:H; simpl in Hc.
  - apply (build_Ok_file w b fl) in H as Hparts; [|done].
    destruct Hparts as (r1 & s1 & s2 & n1 & _ & _ & Hn1 & _ & Ht2 & _ & Hstart).
    pose proof (startAndFingerprint_cases b fl (boundReader b fl r1) s2 eq_refl)
      as [_ Hs]. simpl in Hs. rewrite Hstart in Hs. simpl in Hs.
    assert (∃ n3, appended s2 s' n3) as [n3 Hn3].
    { destruct Hs as (_ & _ & Hfp). destruct (fp b).
      - destruct Hfp as (_ & _ & ?). by eexists.
      - destruct Hfp as (_ & _ & _ & _ & ?). by eexists. }
    exists r, s', (n1 ++ resolveLogs w f fl ++ n3). split_and!; try done.
    + unfold appended in *. by rewrite Hn3, Ht2, Hn1, <- !app_assoc.
    + intros e Hos He. rewrite !elem_of_app. right. left.
      unfold resolveLogs. rewrite decide_True by done. rewrite He.
      rewrite elem_of_app. left. apply list_elem_of_here.
    + intros e He. rewrite !elem_of_app. right. left.
      unfold resolveLogs. rewrite He.
      rewrite elem_of_app. right. apply list_elem_of_here.
  - exfalso.
    destruct Hc as [[Hnone Herr]|[Herr|[(hs & [_ Hfin] & Hhs & Hfail)|
      [(fl' & Hfl & Hfb & Herr)|(fl' & Hfl & Hfp & Herr)]]]].
    + destruct (Hsplit Hnone) as [lsf Hlsf]. congruence.
    + congruence.
    + destruct (Hpipe hs Hhs Hfin) as (p & Hp & Hst).
      destruct Hfail as [(e0 & Hp' & _)|(p' & e0 & Hp' & Hst' & _)]; congruence.
    + assert (fl' = fl) as -> by congruence. specialize (Hstat Hfb). congruence.
    + assert (fl' = fl) as -> by congruence.
      destruct (Hread Hfp) as [? _]. congruence.
  - exfalso. destruct Hc as (fl' & _ & [[Hfp Hneg]|Hdead]).
    + destruct (Hread Hfp) as [_ ?]. lia.
    + rewrite Hdead in Hlive. by destruct Hlive.
Qed.

Lemma buildLineSplitFunc_run b s lsf :
  lineSplitOf b lsf → buildLineSplitFunc b s = (Ok lsf, s).
Proof.
  unfold lineSplitOf, buildLineSplitFunc.
  destruct (b_splitFunc b); [by intros ->|by intros ->].
Qed.

(** [build] with no file and a header to read, as far as it gets. *)
Lemma build_unbound_header b s hs lsf enc :
  b_file b = None →
  f_headerSettings (b_factory b) = Some hs → headerFinalized b = false →
  lineSplitOf b lsf →
  EncodingConfig_Build w (encodingConfig (b_factory b)) = Value enc →
  let f := b_factory b in
  let cfg := headerPipelineConfig f hs in
  build w b s =
    match pipeline_Config_Build w cfg (f_SugaredLogger f) with
    | Error e =>
        (Err (errorWrap "failed to build pipeline: " e),
         with_trace s (trace s ++ [EvPipelineBuild cfg]))
    | Value p =>
        (match DirectedPipeline_Start w p with
         | Some e => Err (errorWrap "failed to start header pipeline: " e)
         | None =>
             Ok (set_SugaredLogger (headerReader f hs p (preparedReader b lsf enc))
                   (With (f_SugaredLogger f) "path" "uninitialized"))
         end,
         with_trace s (trace s ++ [EvPipelineBuild cfg; EvPipelineStart p]))
    end.
Proof.
  intros Hfile Hhs Hfin Hlsf Henc f cfg. unfold build.
  rewrite (bind_step _ _ _ _ _ (buildLineSplitFunc_run b s lsf Hlsf)).
  unfold bind at 1, call. rewrite Henc.
  unfold bind. rewrite (buildPhase_header w b _ s hs Hhs Hfin).
  fold f cfg. rewrite Hfile.
  destruct (pipeline_Config_Build w cfg (f_SugaredLogger f)) as [p|e]; [|done].
  by destruct (DirectedPipeline_Start w p).
Qed.

(** C10: a [build] with no bound file touches neither the fingerprints nor
    the maps in the store, asks nothing of the file system and logs nothing
    (the only events it can append are those of the header pipeline), and
    the Reader it returns has no file, a nil Fingerprint and the builder's
    Offset, whatever [fromBeginning] is.  With header settings and an
    unfinalized header it still builds the header pipeline, and a failure of
    that pipeline is the error it returns; [unsafeReader] fails that way. *)
Theorem build_without_file b s :
  b_file b = None →
  let f := b_factory b in
  let out := build w b s in
  fingerprints out.2 = fingerprints s ∧ maps out.2 = maps s ∧
  (∃ new, appended s out.2 new ∧ Forall (λ e, is_pipeline_event e = true) new) ∧
  (∀ r, out.1 = Ok r →
        file r = None ∧ Fingerprint r = None ∧ Offset r = offset b ∧
        FileAttributes r = fileAttributes b) ∧
  (∀ hs lsf enc,
     f_headerSettings f = Some hs → headerFinalized b = false →
     lineSplitOf b lsf →
     EncodingConfig_Build w (encodingConfig f) = Value enc →
     (∃ rest, appended s out.2 (EvPipelineBuild (headerPipelineConfig f hs) :: rest)) ∧
     (∀ e, pipelineFailure w f hs e → out.1 = Err e)) ∧
  (∀ hs lsf enc e s0,
     f_headerSettings f = Some hs →
     splitterFactory_Build (f_splitterFactory f) (maxLogSize (f_readerConfig f))
       = Value lsf →
     EncodingConfig_Build w (encodingConfig f) = Value enc →
     pipelineFailure w f hs e →
     (unsafeReader w f s0).1 = Err e).
Proof.
  intros Hfile f out. subst f out. split_and!.
  - apply keeps_fingerprints_build. by right.
  - by apply keeps_maps_build.
  - apply (emits_build w (λ e, is_pipeline_event e = true) b); try done;
      rewrite Hfile; by intros [? ?].
  - intros r Hr. destruct (build w b s) as [o s'] eqn:H.
    simpl in Hr. subst o.
    pose proof (build_fields w b s r s' H) as (_ & Hf & Ha & Ho & _).
    unfold builtOffset in Ho. rewrite Hfile in Hf, Ho. split_and!; try done.
    apply build_Ok in H as (lsf & enc & r1 & s1 & _ & _ & Hphase & H).
    rewrite Hfile in H. destruct H as [-> _].
    by apply buildPhase_Ok in Hphase
      as [(_ & -> & _)|(_ & hs & p & _ & _ & _ & -> & _)].
  - intros hs lsf enc Hhs Hfin Hlsf Henc.
    rewrite (build_unbound_header b s hs lsf enc Hfile Hhs Hfin Hlsf Henc).
    split.
    + destruct (pipeline_Config_Build _ _ _) as [p|e]; simpl; by eexists.
    + intros e [(e0 & Hp & ->)|(p & e0 & Hp & Hst & ->)]; rewrite Hp; [done|].
      by rewrite Hst.
  - intros hs lsf enc e s0 Hhs Hlsf Henc Hfail.
    rewrite unsafeReader_eq.
    erewrite (build_unbound_header (freshBuilder (b_factory b) _) _ hs lsf enc);
      try done.
    simpl.
    destruct Hfail as [(e0 & Hp & ->)|(p & e0 & Hp & Hst & ->)]; rewrite Hp;
      [done|]. by rewrite Hst.
Qed.

End ErrorClaims.

(** * The theorems at sample inputs *)

Lemma header_finalization_one_shot_witness :
  ∃ r s',
    HeaderFinalized (ex_old true) = true ∧
    copy ex_world ex_headerFactory (ex_old true) (Some ex_file)
      (ex_store ex_attrs) = (Ok r, s') ∧
    HeaderFinalized r = true ∧ normalPhase ex_headerFactory r.
Proof.
  eexists _, _. split; [reflexivity|].
  split; [vm_compute; reflexivity|].
  opose proof* (header_finalization_one_shot ex_world ex_headerFactory
               (ex_old true) (Some ex_file) (ex_store ex_attrs) _ _
               (ex_builder (ex_plainFactory true) None) ex_empty)
    as [(H1 & H2 & _) _];
    [reflexivity | vm_compute; reflexivity | right; reflexivity |].
  split; assumption.
Defined.

Lemma build_starting_phase_witness :
  ∃ r s',
    build ex_world (ex_builder ex_headerFactory (Some ex_file))
      (ex_store ex_attrs) = (Ok r, s') ∧
    wantsHeader (ex_builder ex_headerFactory (Some ex_file)) ∧
    headerPhase ex_world ex_headerFactory r (ex_store ex_attrs) s'.
Proof.
  eexists _, _. split; [vm_compute; reflexivity|].
  assert (wantsHeader (ex_builder ex_headerFactory (Some ex_file))) as Hw
    by (split; [by eexists|reflexivity]).
  split; [exact Hw|].
  opose proof* (build_starting_phase ex_world
               (ex_builder ex_headerFactory (Some ex_file))
               (ex_store ex_attrs)) as [[_ Hiff] _];
    [vm_compute; reflexivity|].
  exact (Hiff Hw).
Defined.

Lemma pipeline_failure_fails_build_witness :
  (build ex_world_nopipeline (ex_builder ex_headerFactory (Some ex_file))
     (ex_store ex_attrs)).1
  = Err (errorWrap "failed to build pipeline: " (errorString "unsupported type")).
Proof.
  refine (proj2 (pipeline_failure_fails_build ex_world_nopipeline
                   (ex_builder ex_headerFactory (Some ex_file))
                   (ex_store ex_attrs) ex_headerSettings _ eq_refl eq_refl _)
            ex_lineSplit "utf-8" eq_refl eq_refl).
  left. eexists. split; reflexivity.
Defined.

Lemma newReader_start_offset_witness :
  ∃ r s',
    newReader ex_world (ex_plainFactory false) (Some ex_file) None ex_empty
      = (Ok r, s') ∧
    Offset r = 6 ∧
    ∃ new, appended ex_empty s' new ∧ Forall (λ e, is_emit_event e = false) new.
Proof.
  eexists _, _. split; [vm_compute; reflexivity|].
  apply (newReader_start_offset ex_world (ex_plainFactory false) ex_file None
           ex_empty).
  vm_compute. reflexivity.
Defined.




Lemma resolution_failures_not_fatal_witness :
  ∃ r s' new,
    build ex_world_unresolved
      (ex_builder (ex_plainFactory false) (Some ex_file)) (ex_store ex_attrs)
      = (Ok r, s') ∧
    appended (ex_store ex_attrs) s' new ∧
    EvErrorf [("component", "fileconsumer")] "resolve symlinks: %w"
      (errorString "too many links") ∈ new ∧
    EvErrorf [("component", "fileconsumer")] "resolve abs: %w"
      (errorString "getwd failed") ∈ new.
Proof.
  destruct (resolution_failures_not_fatal ex_world_unresolved
              (ex_builder (ex_plainFactory false) (Some ex_file)) ex_file
              (ex_store ex_attrs) eq_refl)
    as (r & s' & new & H1 & H2 & H3 & H4).
  { split_and!.
    - intros _. by eexists.
    - by eexists.
    - intros hs Hhs. discriminate Hhs.
    - by eexists.
    - reflexivity.
    - intros _. split; [reflexivity|]. vm_compute. discriminate. }
  exists r, s', new. split; [exact H1|]. split; [exact H2|]. split.
  - apply H3; [vm_compute; discriminate|reflexivity].
  - apply H4. reflexivity.
Defined.

Lemma build_without_file_witness :
  b_file (ex_builder ex_headerFactory None) = None ∧
  (build ex_world_nopipeline (ex_builder ex_headerFactory None) ex_empty).1
  = Err (errorWrap "failed to build pipeline: " (errorString "unsupported type")) ∧
  (unsafeReader ex_world_nopipeline ex_headerFactory ex_empty).1
  = Err (errorWrap "failed to build pipeline: " (errorString "unsupported type")) ∧
  (build ex_world_nopipeline (ex_builder ex_headerFactory None) ex_empty).2
  = with_trace ex_empty
      [EvPipelineBuild (headerPipelineConfig ex_headerFactory ex_headerSettings)].
Proof.
  destruct (build_without_file ex_world_nopipeline
              (ex_builder ex_headerFactory None) ex_empty eq_refl)
    as (_ & _ & _ & _ & Hhdr & Hunsafe).
  assert (pipelineFailure ex_world_nopipeline ex_headerFactory ex_headerSettings
            (errorWrap "failed to build pipeline: "
               (errorString "unsupported type"))) as Hfail
    by (left; eexists; split; reflexivity).
  split; [reflexivity|]. split.
  - exact (proj2 (Hhdr ex_headerSettings ex_lineSplit "utf-8" eq_refl eq_refl
                    eq_refl eq_refl) _ Hfail).
  - split; [|vm_compute; reflexivity].
    exact (Hunsafe ex_headerSettings ex_lineSplit "utf-8" _ ex_empty eq_refl
             eq_refl eq_refl Hfail).
Defined.

(** * Further properties of [build] and of the factory *)

Section BuildSteps.

Context (w : World).

(** [build] once the line split function and the encoding are there. *)
Lemma build_front b s lsf enc :
  lineSplitOf b lsf →
  EncodingConfig_Build w (encodingConfig (b_factory b)) = Value enc →
  build w b s =
    match buildPhase w b (preparedReader b lsf enc) s with
    | (Ok r, s1) =>
        match b_file b with
        | Some fl => buildWithFile w b fl r s1
        | None =>
            (Ok (set_SugaredLogger r
                   (With (f_SugaredLogger (b_factory b)) "path" "uninitialized")),
             s1)
        end
    | (Err e, s1) => (Err e, s1)
    | (Panic msg, s1) => (Panic msg, s1)
    end.
Proof.
  intros Hlsf Henc. unfold build.
  rewrite (bind_step _ _ _ _ _ (buildLineSplitFunc_run b s lsf Hlsf)).
  unfold bind at 1, call. rewrite Henc. unfold bind, preparedReader.
  destruct (buildPhase w b _ s) as [[r|e|msg] s1]; try done.
  by destruct (b_file b).
Qed.

Lemma phaseEvents_normal b : ¬ wantsHeader b → phaseEvents w b = [].
Proof.
  intros Hn. unfold phaseEvents.
  destruct (f_headerSettings (b_factory b)) as [hs|] eqn:Hhs; [|done].
  destruct (headerFinalized b) eqn:Hfin; [done|].
  destruct Hn. split; [by rewrite Hhs|done].
Qed.

(** The phase branch of a [build] that gets past it, with its events. *)
Lemma buildPhase_Ok_events b r0 s r1 s1 :
  buildPhase w b r0 s = (Ok r1, s1) →
  s1 = with_trace s (trace s ++ phaseEvents w b).
Proof.
  intros H. apply buildPhase_Ok in H
    as [(Hn & _ & ->)|([_ Hfin] & hs & p & Hhs & Hp & _ & _ & ->)].
  - rewrite phaseEvents_normal by done. by rewrite with_trace_nil.
  - unfold phaseEvents. by rewrite Hhs, Hfin, Hp.
Qed.

(** With its front steps going well, the phase branch succeeds. *)
Lemma buildPhase_run b r0 s :
  phaseSucceeds w b →
  ∃ r1, buildPhase w b r0 s
        = (Ok r1, with_trace s (trace s ++ phaseEvents w b)).
Proof.
  intros Hphase.
  destruct (buildPhase_cases w b r0 s)
    as [(r1 & s1 & H)|(hs & e & s1 & [_ Hfin] & Hhs & Hfail & _)].
  - exists r1. by rewrite H, (buildPhase_Ok_events b r0 s r1 s1 H).
  - exfalso. destruct (Hphase hs Hhs Hfin) as (p & Hp & Hst).
    destruct Hfail as [(e0 & Hp' & _)|(p' & e0 & Hp' & Hst' & _)]; congruence.
Qed.

End BuildSteps.

Section BuildProperties.

Context (w : World).

(** A failure to get the line split function or the encoding is returned as
    it is, and [build] has done nothing by then: the state is unchanged. *)
Theorem build_early_failure b s e :
  earlyFailure w b e → build w b s = (Err e, s).
Proof.
  intros [[Hnone Herr]|[[lsf Hlsf] Herr]]; unfold build.
  - unfold bind at 1, buildLineSplitFunc. by rewrite Hnone, Herr.
  - rewrite (bind_step _ _ _ _ _ (buildLineSplitFunc_run b s lsf Hlsf)).
    unfold bind at 1, call. by rewrite Herr.
Qed.

(** A header pipeline that fails to build or to start stops [build] before
    it touches the file or the attribute map: the state differs from the
    initial one only by the pipeline events. *)
Theorem build_pipeline_failure_state b s hs lsf enc :
  f_headerSettings (b_factory b) = Some hs →
  headerFinalized b = false →
  lineSplitOf b lsf →
  EncodingConfig_Build w (encodingConfig (b_factory b)) = Value enc →
  let f := b_factory b in
  let cfg := headerPipelineConfig f hs in
  match pipeline_Config_Build w cfg (f_SugaredLogger f) with
  | Error e0 =>
      build w b s = (Err (errorWrap "failed to build pipeline: " e0),
                     with_trace s (trace s ++ [EvPipelineBuild cfg]))
  | Value p =>
      ∀ e0, DirectedPipeline_Start w p = Some e0 →
        build w b s = (Err (errorWrap "failed to start header pipeline: " e0),
                       with_trace s (trace s ++ [EvPipelineBuild cfg;
                                                 EvPipelineStart p]))
  end.
Proof.
  intros Hhs Hfin Hlsf Henc f cfg.
  rewrite (build_front w b s lsf enc Hlsf Henc).
  rewrite (buildPhase_header w b _ s hs Hhs Hfin). fold f cfg.
  destruct (pipeline_Config_Build w cfg (f_SugaredLogger f)) as [p|e0]; [|done].
  intros e0 Hst. by rewrite Hst.
Qed.

(** The effects of a successful [build] on a bound file, in order: the
    header pipeline is built and started, then the path resolutions are
    logged where they failed, then the file is measured, then its
    fingerprint is read; nothing else happens. *)
Theorem build_effects_in_order b fl s r s' :
  b_file b = Some fl →
  build w b s = (Ok r, s') →
  trace s' = trace s ++ phaseEvents w b ++ resolveLogs w (b_factory b) fl
             ++ statEvents (b_factory b) fl ++ readEvents b fl.
Proof.
  intros Hfile H.
  apply build_Ok in H as (lsf & enc & r1 & s1 & _ & _ & Hphase & H).
  rewrite Hfile in H.
  apply buildPhase_Ok_events in Hphase. subst s1.
  apply buildWithFile_Ok in H as (s2 & H & _ & Ht2 & _).
  pose proof (startAndFingerprint_cases b fl (boundReader b fl r1) s2 eq_refl)
    as [_ Hc].
  simpl in Hc. rewrite H in Hc. simpl in Hc. destruct Hc as (_ & _ & Hfp).
  unfold readEvents. simpl in Ht2.
  destruct (fp b).
  - destruct Hfp as (_ & _ & Happ). unfold appended in Happ.
    rewrite Happ, Ht2. by rewrite app_nil_r, <- !app_assoc.
  - destruct Hfp as (_ & _ & _ & _ & Happ). unfold appended in Happ.
    rewrite Happ, Ht2. by rewrite <- !app_assoc.
Qed.


(** [build] does not copy the attribute map it is given: the Reader's
    FileAttributes is the builder's map; a successful [build] changes no
    other map, and in that map no key besides the four file keys. *)
Theorem build_attribute_frame b s r s' :
  build w b s = (Ok r, s') →
  FileAttributes r = fileAttributes b ∧
  (∀ l, fileAttributes b ≠ Some l → maps s' !! l = maps s !! l) ∧
  (∀ k, k ∉ attributeKeys w →
        index s' (fileAttributes b) k = index s (fileAttributes b) k) ∧
  (∀ fl l g, b_file b = Some fl → fileAttributes b = Some l →
             maps s !! l = Some g →
             maps s' !! l
             = Some (resolvedAll w (f_readerConfig (b_factory b)) fl
                       (absName w fl) g)).
Proof.
  intros H. split_and!.
  - by apply build_fields in H as (_ & _ & ? & _).
  - intros l Hl. by eapply build_maps_frame.
  - intros k Hk. by eapply build_attrs_other.
  - intros fl l g Hfile Hl Hg.
    apply (build_attributes w b fl) in H; [|done].
    destruct H as [(Hnil & _)|(l' & g' & Hl' & Hg' & ->)]; [congruence|].
    assert (l' = l) as -> by congruence.
    assert (g' = g) as -> by congruence.
    apply lookup_insert_eq.
Qed.


End BuildProperties.

Section FactoryProperties.

Context (w : World).

Lemma startAndFingerprint_run b fl r0 s :
  file r0 = Some fl → fileStepsSucceed b fl →
  ∃ r s', startAndFingerprint b fl r0 s = (Ok r, s') ∧ maps s' = maps s ∧
          FileAttributes r = FileAttributes r0.
Proof.
  intros Hfile [Hstat Hread].
  pose proof (startAndFingerprint_cases b fl r0 s Hfile) as [Hm Hc].
  destruct (startAndFingerprint b fl r0 s) as [[r|e|msg] s'] eqn:H;
    simpl in *.
  - exists r, s'. split_and!; try done. destruct Hc as (-> & _). done.
  - exfalso. destruct Hc as (_ & [[Hfb He]|(Hfp & He & _)]).
    + specialize (Hstat Hfb). congruence.
    + destruct (Hread Hfp) as [? _]. congruence.
  - exfalso. destruct Hc as [Hfp Hneg]. destruct (Hread Hfp) as [_ ?]. lia.
Qed.

(** [build] returns a Reader when all its fallible steps go well and, on a
    bound file, the attribute map is live. *)
Lemma build_succeeds b s :
  frontSucceeds w b →
  (∀ fl, b_file b = Some fl →
         is_Some (map_at s (fileAttributes b)) ∧ fileStepsSucceed b fl) →
  ∃ r s', build w b s = (Ok r, s').
Proof.
  intros ([lsf Hlsf] & [enc Henc] & Hphase) Hfile.
  rewrite (build_front w b s lsf enc Hlsf Henc).
  destruct (buildPhase_run w b (preparedReader b lsf enc) s Hphase) as [r1 ->].
  destruct (b_file b) as [fl|]; [|by eexists _, _].
  destruct (Hfile fl eq_refl) as [[g Hg] Hsteps].
  destruct (fileAttributes b) as [l|] eqn:Hl; [|discriminate].
  simpl in Hg.
  rewrite (buildWithFile_live w b fl r1
             (with_trace s (trace s ++ phaseEvents w b)) l g Hl Hg).
  match goal with |- context [startAndFingerprint b fl ?r0 ?s0] =>
    destruct (startAndFingerprint_run b fl r0 s0 eq_refl Hsteps)
      as (r & s' & H & _)
  end.
  by exists r, s'.
Qed.

Lemma build_ignores_splitter b sfac sf s :
  b_splitFunc b = Some sf →
  build w (builderWithSplitter b sfac) s = build w b s.
Proof.
  intros Hsf. destruct b as [f fl p off sp fin attrs]. simpl in Hsf. subst sp.
  reflexivity.
Qed.

(** A split function given to the builder is the Reader's line split
    function, and the splitter factory is not consulted at all: with any
    other splitter factory [build] returns the same result in the same
    state. *)
Theorem build_supplied_split_func b sfac sf s :
  b_splitFunc b = Some sf →
  build w (builderWithSplitter b sfac) s = build w b s ∧
  (∀ r s', build w b s = (Ok r, s') → lineSplitFunc r = Some sf).
Proof.
  intros Hsf. split; [by eapply build_ignores_splitter|].
  intros r s' H. apply build_fields in H as (_ & _ & _ & _ & _ & Hlsf & _).
  unfold lineSplitOf in Hlsf. by rewrite Hsf in Hlsf.
Qed.

Lemma resolvePaths_windows ev f fl s :
  GOOS w = "windows" →
  resolvePaths (worldWithEvalSymlinks w ev) f fl s = resolvePaths w f fl s.
Proof.
  intros Hos. unfold resolvePaths. simpl. rewrite Hos.
  destruct (decide ("windows" ≠ "windows")); [done|reflexivity].
Qed.

(** On Windows [filepath.EvalSymlinks] plays no part: whatever it would
    return, [build] gives the same result in the same state. *)
Theorem build_on_windows_ignores_EvalSymlinks ev b s :
  GOOS w = "windows" →
  build (worldWithEvalSymlinks w ev) b s = build w b s.
Proof.
  intros Hos. unfold build, bind.
  destruct (buildLineSplitFunc b s) as [[lsf|e|msg] s0]; try done.
  change (EncodingConfig_Build (worldWithEvalSymlinks w ev))
    with (EncodingConfig_Build w).
  destruct (call (EncodingConfig_Build w (encodingConfig (b_factory b))) s0)
    as [[enc|e|msg] s1]; try done.
  change (buildPhase (worldWithEvalSymlinks w ev)) with (buildPhase w).
  destruct (buildPhase w b _ s1) as [[r1|e|msg] s2]; try done.
  destruct (b_file b) as [fl|]; [|done].
  unfold buildWithFile, bind. rewrite (resolvePaths_windows ev _ fl s2 Hos).
  destruct (resolvePaths w (b_factory b) fl s2) as [[abs|e|msg] s3]; done.
Qed.

(** A nil attribute map on a bound file: with all four include flags off
    [build] only reads the map and goes through, leaving the Reader's
    FileAttributes nil; with any flag on it panics on the assignment. *)
Theorem build_nil_attribute_map b fl s :
  b_file b = Some fl →
  fileAttributes b = None →
  frontSucceeds w b →
  fileStepsSucceed b fl →
  (noAttributes (f_readerConfig (b_factory b)) →
   ∃ r s', build w b s = (Ok r, s') ∧ FileAttributes r = None ∧
           maps s' = maps s) ∧
  (¬ noAttributes (f_readerConfig (b_factory b)) →
   ∃ msg, (build w b s).1 = Panic msg).
Proof.
  intros Hfile Hnil ([lsf Hlsf] & [enc Henc] & Hphase) Hsteps.
  rewrite (build_front w b s lsf enc Hlsf Henc).
  destruct (buildPhase_run w b (preparedReader b lsf enc) s Hphase) as [r1 ->].
  rewrite Hfile.
  destruct (buildWithFile_nil w b fl r1
              (with_trace s (trace s ++ phaseEvents w b)) Hnil)
    as [[Hno ->]|[Hno (msg & s0 & ->)]].
  - split; [|done]. intros _.
    match goal with |- context [startAndFingerprint b fl ?r0 ?s0] =>
      destruct (startAndFingerprint_run b fl r0 s0 eq_refl Hsteps)
        as (r & s' & H & Hm & Ha)
    end.
    exists r, s'. split_and!; try done. by rewrite Ha.
  - split; [done|]. intros _. by exists msg.
Qed.

(** [newReader] on a bound file returns a Reader whenever the factory can
    build its parts, [Stat] succeeds where the start is at the end, and the
    fingerprint read succeeds where no fingerprint is given: the attribute
    map is the builder's own and never the cause of a failure. *)
Theorem newReader_succeeds f fl p s :
  factoryReady w f →
  (fromBeginning f = false → statErr fl = None) →
  (p = None → readErr fl = None ∧ 0 ≤ fingerprintSize (f_readerConfig f)) →
  ∃ r s', newReader w f (Some fl) p s = (Ok r, s').
Proof.
  intros (Hsplit & Henc & Hpipe) Hstat Hread. rewrite newReader_eq.
  apply build_succeeds.
  - split_and!; [done|done|]. intros hs Hhs _. by apply Hpipe.
  - intros fl' [= <-]. split; [|done].
    simpl. rewrite lookup_insert_eq. by eexists.
Qed.

Lemma attributeKey_in_table cfg fl k :
  k ∈ attributeKeys w → ∃ inc v, (inc, k, v) ∈ fileAttributeTable w cfg fl.
Proof.
  unfold attributeKeys, fileAttributeTable. intros Hk.
  repeat (apply elem_of_cons in Hk as [->|Hk]);
    [..|by apply elem_of_nil in Hk]; eexists _, _.
  - apply list_elem_of_here.
  - apply list_elem_of_further, list_elem_of_here.
  - do 2 apply list_elem_of_further. apply list_elem_of_here.
  - do 3 apply list_elem_of_further. apply list_elem_of_here.
Qed.

(** The attribute map of a Reader made by [newReader] on a bound file is a
    new map that holds exactly the file attributes whose flags are set, each
    with its value, and nothing else. *)
Theorem newReader_attributes_exact f fl p s r s' :
  NoDup (attributeKeys w) →
  newReader w f (Some fl) p s = (Ok r, s') →
  ∃ l g,
    FileAttributes r = Some l ∧ maps s !! l = None ∧ maps s' !! l = Some g ∧
    ∀ k v, g !! k = Some v ↔
           (true, k, v) ∈ fileAttributeTable w (f_readerConfig f) fl.
Proof.
  intros Hnd H. rewrite newReader_eq in H.
  set (l := fresh (dom (maps s))) in *.
  pose proof (build_fields w _ _ r s' H) as (_ & _ & Ha & _).
  apply (build_attributes w _ fl) in H; [|done].
  destruct H as [(Hnil & _)|(l' & g & [= <-] & Hg & Hs')]; [discriminate|].
  simpl in Hg. rewrite lookup_insert_eq in Hg. injection Hg as <-.
  exists l, (resolvedAll w (f_readerConfig f) fl (absName w fl) ∅).
  split_and!; [done| |by rewrite Hs', lookup_insert_eq|].
  { apply not_elem_of_dom, is_fresh. }
  intros k v. split.
  - intros Hk. destruct (decide (k ∈ attributeKeys w)) as [Hin|Hout].
    + destruct (attributeKey_in_table (f_readerConfig f) fl k Hin)
        as (inc & v' & Htab).
      rewrite (resolvedAll_lookup w _ fl ∅ inc k v' Hnd Htab) in Hk.
      rewrite resolved_lookup_eq in Hk. destruct inc.
      * by injection Hk as <-.
      * rewrite lookup_empty in Hk. simpl in Hk.
        destruct (decide (anyNil ≠ anyNil)); discriminate.
    + rewrite resolvedAll_other in Hk by done. by rewrite lookup_empty in Hk.
  - intros Htab. rewrite (resolvedAll_lookup w _ fl ∅ true k v Hnd Htab).
    by rewrite resolved_lookup_eq.
Qed.

(** Copying a Reader whose header is not finalized, in a factory with header
    settings, does not carry the old header pipeline over: the successor is
    in the header phase with a pipeline built and started anew during the
    copy. *)
Theorem copy_restarts_header f old newFile s r s' hs :
  f_headerSettings f = Some hs →
  HeaderFinalized old = false →
  copy w f old newFile s = (Ok r, s') →
  HeaderFinalized r = false ∧ headerPhase w f r s s'.
Proof.
  intros Hhs Hfin H. apply copy_Ok in H as (bs & g & _ & _ & H).
  apply build_fields in H as (Hf & _ & _ & _ & _ & _ & _ & Hh).
  split; [by rewrite Hf|].
  apply Hh. split; [simpl; by rewrite Hhs|done].
Qed.

(** The successor made by [copy] reads lines with the old Reader's line
    split function; only when the old Reader has none does [copy] ask the
    splitter factory, and otherwise the splitter factory has no influence on
    the result. *)
Theorem copy_line_split_func f old newFile s :
  (∀ r s', copy w f old newFile s = (Ok r, s') →
     match lineSplitFunc old with
     | Some sf => lineSplitFunc r = Some sf
     | None => splitterFactory_Build (f_splitterFactory f)
                 (maxLogSize (f_readerConfig f)) = Value (lineSplitFunc r)
     end) ∧
  (∀ sf sfac, lineSplitFunc old = Some sf →
     copy w (factoryWithSplitter f sfac) old newFile s
     = copy w f old newFile s).
Proof.
  split.
  - intros r s' H. apply copy_Ok in H as (bs & g & _ & _ & H).
    apply build_fields in H as (_ & _ & _ & _ & _ & Hlsf & _).
    unfold lineSplitOf in Hlsf. simpl in Hlsf.
    by destruct (lineSplitFunc old).
  - intros sf sfac Hsf. unfold copy, bind. simpl.
    destruct (Fingerprint_Copy (Fingerprint old) _) as [[p|e|msg] s1]; try done.
    destruct (MapCopy (FileAttributes old) s1) as [[attrs|e|msg] s2]; try done.
    exact (build_ignores_splitter
             (copyBuilder f old newFile p attrs) sfac sf s2 Hsf).
Qed.

(** [copy] onto a bound file returns a Reader whenever the factory can build
    its parts, the old Reader's fingerprint and attribute map are live, and
    [Stat] succeeds where the start is at the end; the file is not read, so
    a failing read does not matter. *)
Theorem copy_succeeds f old fl s bs :
  factoryReady w f →
  bytes_at s (Fingerprint old) = Some bs →
  (∀ lm, FileAttributes old = Some lm → is_Some (maps s !! lm)) →
  (fromBeginning f = false → statErr fl = None) →
  ∃ r s', copy w f old (Some fl) s = (Ok r, s').
Proof.
  intros (Hsplit & Henc & Hpipe) Hbs Hattrs Hstat.
  destruct (Fingerprint old) as [lfp|] eqn:Hfp; [|discriminate].
  simpl in Hbs.
  assert (∃ g, MapCopy (FileAttributes old)
                 (with_fingerprints
                    (with_maps s (<[fresh (dom (maps s)) := ∅]> (maps s)))
                    (<[fresh (dom (fingerprints s)) := bs]> (fingerprints s)))
               = (Ok (Some (fresh (dom (<[fresh (dom (maps s)) := ∅]> (maps s))))),
                  copyStore s bs g)) as [g Hcopy].
  { unfold MapCopy. destruct (FileAttributes old) as [lm|] eqn:Hlm.
    - destruct (Hattrs lm eq_refl) as [g Hg]. exists g. simpl.
      rewrite lookup_insert_ne.
      + by rewrite Hg.
      + intros Heq. apply (is_fresh (dom (maps s))). rewrite Heq.
        apply elem_of_dom. by eexists.
    - by exists ∅. }
  unfold copy.
  rewrite (bind_step _ _ _ _ _ (newReaderBuilder_eq f s)).
  erewrite bind_step;
    [|unfold Fingerprint_Copy; rewrite Hfp; simpl; rewrite Hbs; reflexivity].
  rewrite (bind_step _ _ _ _ _ Hcopy).
  apply build_succeeds.
  - split_and!; [|done|intros hs Hhs _; by apply Hpipe].
    unfold lineSplitOf. simpl. destruct (lineSplitFunc old); [by eexists|done].
  - intros fl' [= <-]. split.
    + simpl. rewrite lookup_insert_eq. by eexists.
    + split; [done|]. simpl. discriminate.
Qed.

(** [unsafeReader] returns its placeholder whenever the factory can build
    its parts: a Reader with no file, no fingerprint, Offset 0, an unfinalized
    header, a new empty attribute map and a logger whose path is
    [uninitialized]; the store gains that one map and nothing else. *)
Theorem unsafeReader_placeholder f s :
  factoryReady w f →
  ∃ r s' l,
    unsafeReader w f s = (Ok r, s') ∧
    maps s !! l = None ∧ maps s' = <[l := ∅]> (maps s) ∧
    fingerprints s' = fingerprints s ∧
    FileAttributes r = Some l ∧ file r = None ∧ Fingerprint r = None ∧
    Offset r = 0 ∧ HeaderFinalized r = false ∧
    r_SugaredLogger r = With (f_SugaredLogger f) "path" "uninitialized".
Proof.
  intros ([lsf Hsplit] & [enc Henc] & Hpipe). rewrite unsafeReader_eq.
  set (l := fresh (dom (maps s))).
  set (b := freshBuilder f l).
  assert (phaseSucceeds w b) as Hphase by (intros hs Hhs _; by apply Hpipe).
  rewrite (build_front w b _ lsf enc Hsplit Henc).
  destruct (buildPhase_run w b (preparedReader b lsf enc)
              (with_maps s (<[l := ∅]> (maps s))) Hphase) as [r1 Hrun].
  rewrite Hrun. simpl.
  eexists _, _, l. split; [reflexivity|]. simpl.
  apply buildPhase_Ok in Hrun
    as [(_ & -> & _)|(_ & hs & p & _ & _ & _ & -> & _)];
    (split_and!; try done; apply not_elem_of_dom, is_fresh).
Qed.

End FactoryProperties.

(** * Properties of the helpers of [wal_test.go] *)

Lemma ltb_asym (x y : string) : String.ltb x y = true → String.ltb y x = false.
Proof.
  unfold String.ltb. rewrite (String.compare_antisym x y).
  by destruct (String.compare y x).
Qed.

Lemma ex_sortSlice_sortsByKey : sortsByKey ex_sortSlice.
Proof.
  intros A key l. unfold ex_sortSlice. split.
  - apply merge_sort_Permutation.
  - apply Sorted_merge_sort. intros x y.
    destruct (String.ltb (key y) (key x)) eqn:Hyx; [|by left].
    right. by apply ltb_asym.
Qed.

Lemma StronglySorted_lookup_lt {A} (R : relation A) (l : list A) i j x y :
  StronglySorted R l → l !! i = Some x → l !! j = Some y → (i < j)%nat → R x y.
Proof.
  intros Hs. revert i j. induction Hs as [|a l Hs IH Hall]; intros i j Hx Hy Hij.
  - by rewrite lookup_nil in Hx.
  - destruct j as [|j]; [lia|]. simpl in Hy. destruct i as [|i].
    + injection Hx as <-. rewrite Forall_forall in Hall.
      apply Hall. by eapply list_elem_of_lookup_2.
    + simpl in Hx. apply (IH i j); [done|done|lia].
Qed.

Lemma Sorted_weaken_on {A} (R R' : relation A) (l : list A) :
  Sorted R l → (∀ x y, x ∈ l → y ∈ l → R x y → R' x y) → Sorted R' l.
Proof.
  induction 1 as [|a l Hs IH Hhd]; intros Himpl; constructor.
  - apply IH. intros x y Hx Hy. apply Himpl; by apply list_elem_of_further.
  - destruct Hhd as [|b l' Hab]; constructor.
    apply Himpl; [apply list_elem_of_here| |done].
    apply list_elem_of_further, list_elem_of_here.
Qed.

Lemma Sorted_le_seq a n : Sorted le (seq a n).
Proof.
  revert a. induction n as [|n IH]; intros a; simpl; constructor; [done|].
  destruct n; simpl; constructor. lia.
Qed.

Section WalTestProperties.

Context (sort_Slice : ∀ A : Type, (A → string) → list A → list A).
Context (TimeSeries_String : prompb_TimeSeries → string).

Lemma collectMessages_cases idx ts :
  collectMessages idx ts =
  if decide (Forall (λ i, i < length (Samples ts))%nat idx)
  then Ok (map (λ i, mk_byLabelMessage i i) idx)
  else Panic "index out of range".
Proof.
  induction idx as [|i idx IH]; cbn [collectMessages].
  - destruct (decide (Forall _ [])) as [|Hno]; [done|].
    destruct Hno. constructor.
  - destruct (Samples ts !! i) as [x|] eqn:Hi.
    + apply lookup_lt_Some in Hi. rewrite IH.
      destruct (decide (Forall _ idx)) as [Hall|Hno].
      * by rewrite decide_True by (by constructor).
      * rewrite decide_False; [done|]. by intros [_ ?]%Forall_cons.
    + apply lookup_ge_None in Hi. rewrite decide_False; [done|].
      intros [? _]%Forall_cons. lia.
Qed.

Lemma collectMessages_seq ts :
  collectMessages (seq 0 (length (Labels ts))) ts =
  if decide (hasSamples ts)
  then Ok (map (λ i, mk_byLabelMessage i i) (seq 0 (length (Labels ts))))
  else Panic "index out of range".
Proof.
  rewrite collectMessages_cases. unfold hasSamples.
  destruct (decide (length (Labels ts) ≤ length (Samples ts))%nat) as [Hle|Hgt].
  - rewrite decide_True; [done|]. apply Forall_forall.
    intros i Hi%elem_of_seq. lia.
  - rewrite decide_False; [done|]. intros Hall. rewrite Forall_forall in Hall.
    apply Hgt. destruct (length (Labels ts)) as [|n] eqn:Hn; [lia|].
    assert (n < length (Samples ts))%nat; [|lia].
    apply Hall, elem_of_seq. lia.
Qed.

Lemma sortSeries_cases ts :
  sortSeries sort_Slice ts =
  if decide (hasSamples ts)
  then Ok (writeBack
             (sort_Slice _ (λ m, label_Value (derefLabel ts (label m)))
                (map (λ i, mk_byLabelMessage i i) (seq 0 (length (Labels ts)))))
             0 ts)
  else Panic "index out of range".
Proof.
  unfold sortSeries. rewrite collectMessages_seq.
  by destruct (decide (hasSamples ts)).
Qed.

Lemma sortEachSeries_Panic tss :
  (∃ msg, sortEachSeries sort_Slice tss = Panic msg) ↔
  Exists (λ ts, ¬ hasSamples ts) tss.
Proof.
  induction tss as [|ts tss IH]; simpl.
  - split; [by intros [? ?]|by intros ?%Exists_nil].
  - rewrite sortSeries_cases, Exists_cons.
    destruct (decide (hasSamples ts)) as [Hok|Hno].
    + destruct (sortEachSeries sort_Slice tss) as [r|e|msg] eqn:Hrest.
      * split; [by intros [? ?]|]. intros [?|Hex]; [done|].
        apply IH in Hex as [? ?]. discriminate.
      * split; [by intros [? ?]|]. intros [?|Hex]; [done|].
        apply IH in Hex as [? ?]. discriminate.
      * split; [intros _; right; apply IH; by eexists|by eexists].
    + split; [by left|by eexists].
Qed.

Lemma sortEachSeries_never_Err tss e : sortEachSeries sort_Slice tss ≠ Err e.
Proof.
  induction tss as [|ts tss IH]; simpl; [done|].
  rewrite sortSeries_cases. destruct (decide (hasSamples ts)); [|done].
  by destruct (sortEachSeries sort_Slice tss).
Qed.

(** [orderByLabelValue] panics exactly when some series of the request has
    fewer samples than labels; otherwise it returns the reordered request.
    This does not depend on how [sort.Slice] orders anything. *)
Theorem orderByLabelValue_panics_iff wreq :
  ((∃ msg, orderByLabelValue sort_Slice TimeSeries_String wreq = Panic msg) ↔
   Exists (λ ts, length (Samples ts) < length (Labels ts))%nat
     (Timeseries wreq)) ∧
  ((∃ wreq', orderByLabelValue sort_Slice TimeSeries_String wreq = Ok wreq') ↔
   Forall hasSamples (Timeseries wreq)).
Proof.
  assert (Exists (λ ts, length (Samples ts) < length (Labels ts))%nat
            (Timeseries wreq) ↔
          Exists (λ ts, ¬ hasSamples ts) (Timeseries wreq)) as Hex.
  { rewrite !Exists_exists. unfold hasSamples.
    split; intros (ts & ? & ?); exists ts; split; try done; lia. }
  pose proof (sortEachSeries_Panic (Timeseries wreq)) as Hp.
  pose proof (sortEachSeries_never_Err (Timeseries wreq)) as He.
  unfold orderByLabelValue.
  destruct (sortEachSeries sort_Slice (Timeseries wreq)) as [r|e|msg].
  - split.
    + rewrite Hex, <- Hp. split; by intros [? ?].
    + split; [|by eexists]. intros _. apply Forall_forall. intros ts Hts.
      destruct (decide (hasSamples ts)) as [|Hno]; [done|].
      assert (∃ msg, Ok r = Panic msg) as [? ?]; [|discriminate].
      apply Hp, Exists_exists. by exists ts.
  - by destruct (He e).
  - split.
    + rewrite Hex, <- Hp. split; intros _; by eexists.
    + split; [by intros [? ?]|]. intros Hall.
      assert (Exists (λ ts, ¬ hasSamples ts) (Timeseries wreq)) as Hbad
        by (apply Hp; by eexists).
      apply Exists_exists in Hbad as (ts & Hts & Hno).
      rewrite Forall_forall in Hall. by destruct (Hno (Hall ts Hts)).
Qed.

End WalTestProperties.

Lemma elem_of_insert_inv {A} (l : list A) i x y :
  x ∈ <[i := y]> l → x = y ∨ x ∈ l.
Proof.
  revert i. induction l as [|a l IH]; intros i; simpl; [by right|].
  destruct i as [|i]; simpl.
  - intros [->|?]%elem_of_cons; [by left|]. right. by apply list_elem_of_further.
  - intros [->|Hin]%elem_of_cons; [right; apply list_elem_of_here|].
    destruct (IH i Hin) as [->|?]; [by left|].
    right. by apply list_elem_of_further.
Qed.

Section WriteBack.

Lemma writeBack_lengths ms i ts :
  length (Labels (writeBack ms i ts)) = length (Labels ts) ∧
  length (Samples (writeBack ms i ts)) = length (Samples ts).
Proof.
  revert i ts. induction ms as [|m ms IH]; intros i ts; simpl; [done|].
  destruct (IH (S i)
              (mk_TimeSeries (<[i := derefLabel ts (label m)]> (Labels ts))
                 (<[i := derefSample
                          (mk_TimeSeries
                             (<[i := derefLabel ts (label m)]> (Labels ts))
                             (Samples ts)) (sample m)]> (Samples ts))))
    as [-> ->].
  simpl. by rewrite !length_insert.
Qed.

Lemma writeBack_outside ms i ts j :
  (j < i ∨ i + length ms ≤ j)%nat →
  Labels (writeBack ms i ts) !! j = Labels ts !! j ∧
  Samples (writeBack ms i ts) !! j = Samples ts !! j.
Proof.
  revert i ts. induction ms as [|m ms IH]; intros i ts Hj; simpl; [done|].
  simpl in Hj.
  match goal with |- context [writeBack ms (S i) ?t] =>
    destruct (IH (S i) t) as [-> ->]; [lia|]
  end.
  simpl. rewrite !list_lookup_insert_ne by lia. done.
Qed.

Lemma writeBack_elements ms i ts :
  Forall (validMessage ts) ms →
  (∀ x, x ∈ Labels (writeBack ms i ts) → x ∈ Labels ts) ∧
  (∀ y, y ∈ Samples (writeBack ms i ts) → y ∈ Samples ts).
Proof.
  revert i ts. induction ms as [|m ms IH]; intros i ts Hall; simpl; [done|].
  apply Forall_cons in Hall as [[Hl Hs] Hall].
  destruct (lookup_lt_is_Some_2 _ _ Hl) as [a Ha].
  destruct (lookup_lt_is_Some_2 _ _ Hs) as [c Hc].
  match goal with |- context [writeBack ms (S i) ?t] =>
    destruct (IH (S i) t) as [IHl IHs]
  end.
  { eapply Forall_impl; [exact Hall|]. intros m' [? ?].
    split; simpl; by rewrite length_insert. }
  split.
  - intros x Hx. apply IHl in Hx. simpl in Hx.
    apply elem_of_insert_inv in Hx as [->|?]; [|done].
    unfold derefLabel. rewrite Ha. by eapply list_elem_of_lookup_2.
  - intros y Hy. apply IHs in Hy. simpl in Hy.
    apply elem_of_insert_inv in Hy as [->|?]; [|done].
    unfold derefSample. simpl. rewrite Hc. by eapply list_elem_of_lookup_2.
Qed.

Lemma writeBack_identity k i ts :
  (i + k ≤ length (Labels ts))%nat → (i + k ≤ length (Samples ts))%nat →
  writeBack (map (λ j, mk_byLabelMessage j j) (seq i k)) i ts = ts.
Proof.
  revert i. induction k as [|k IH]; intros i Hl Hs; simpl; [done|].
  destruct (lookup_lt_is_Some_2 (Labels ts) i) as [a Ha]; [lia|].
  destruct (lookup_lt_is_Some_2 (Samples ts) i) as [c Hc]; [lia|].
  unfold derefLabel, derefSample. simpl. rewrite Ha, Hc. simpl.
  rewrite !list_insert_id by done.
  destruct ts as [ls ss]. simpl in *. apply IH; simpl; lia.
Qed.

End WriteBack.

Section WalTestOrder.

Context (sort_Slice : ∀ A : Type, (A → string) → list A → list A).
Context (TimeSeries_String : prompb_TimeSeries → string).
Context (Hsort : sortsByKey sort_Slice).

(** With label values that grow strictly, sorting the messages by label
    value leaves them in their order. *)
Lemma sorted_messages_in_order ts :
  strictlyIncreasing (Labels ts) →
  let msgs := map (λ i, mk_byLabelMessage i i) (seq 0 (length (Labels ts))) in
  sort_Slice _ (λ m, label_Value (derefLabel ts (label m))) msgs = msgs.
Proof.
  intros Hinc msgs.
  destruct (Hsort _ (λ m, label_Value (derefLabel ts (label m))) msgs)
    as [Hperm Hsorted].
  set (sorted := sort_Slice _ _ msgs) in *.
  assert (∀ m, m ∈ sorted →
               m = mk_byLabelMessage (label m) (label m) ∧
               (label m < length (Labels ts))%nat) as Hdiag.
  { intros m Hm. rewrite Hperm in Hm.
    apply list_elem_of_fmap in Hm as (i & -> & Hi%elem_of_seq). simpl.
    split; [done|lia]. }
  assert (Sorted le (label <$> sorted)) as Hle.
  { apply (Sorted_fmap label (λ x y, (label x ≤ label y)%nat) le); [done|].
    eapply Sorted_weaken_on; [exact Hsorted|].
    intros x y Hx Hy Hxy. simpl in Hxy.
    destruct (Hdiag x Hx) as [_ Hlx], (Hdiag y Hy) as [_ Hly].
    destruct (decide (label x ≤ label y)%nat) as [|Hgt]; [done|].
    exfalso.
    destruct (lookup_lt_is_Some_2 _ _ Hlx) as [a Ha].
    destruct (lookup_lt_is_Some_2 _ _ Hly) as [c Hc].
    assert (String.ltb (label_Value c) (label_Value a) = true) as Hlt.
    { apply (StronglySorted_lookup_lt
               (λ a b, String.ltb (label_Value a) (label_Value b) = true)
               (Labels ts) (label y) (label x) c a Hinc Hc Ha). lia. }
    unfold derefLabel in Hxy. rewrite Ha, Hc in Hxy. simpl in Hxy. congruence. }
  assert (label <$> sorted = seq 0 (length (Labels ts))) as Hlabels.
  { apply (Sorted_unique le); [done|apply Sorted_le_seq|].
    rewrite Hperm. unfold msgs. rewrite <- list_fmap_compose.
    by rewrite list_fmap_id. }
  assert (∀ l : list byLabelMessage,
             (∀ m, m ∈ l → m = mk_byLabelMessage (label m) (label m)) →
             l = map (λ i, mk_byLabelMessage i i) (label <$> l)) as Hgen.
  { induction l as [|m l IH]; intros Hl; simpl; [done|]. f_equal.
    - apply Hl, list_elem_of_here.
    - apply IH. intros m' Hm'. by apply Hl, list_elem_of_further. }
  change (sorted = map (λ i, mk_byLabelMessage i i) (seq 0 (length (Labels ts)))).
  rewrite <- Hlabels. apply Hgen. intros m Hm. by apply Hdiag.
Qed.

Lemma sortSeries_in_order ts :
  strictlyIncreasing (Labels ts) → hasSamples ts →
  sortSeries sort_Slice ts = Ok ts.
Proof.
  intros Hinc Hhas. rewrite sortSeries_cases, decide_True by done.
  rewrite sorted_messages_in_order by done.
  rewrite writeBack_identity; [done|lia|unfold hasSamples in Hhas; lia].
Qed.

Lemma sortEachSeries_in_order wreq :
  seriesInOrder wreq →
  sortEachSeries sort_Slice (Timeseries wreq) = Ok (Timeseries wreq).
Proof.
  unfold seriesInOrder.
  induction 1 as [|ts tss [Hinc Hhas] Hall IH]; simpl; [done|].
  by rewrite sortSeries_in_order, IH.
Qed.

(** On a request whose series each carry their labels in strictly growing
    value order (one label per series, as in [TestWAL_persist], is such a
    request) and have a sample per label, [orderByLabelValue] changes no
    series: it only rearranges the series, by their [String]. *)
Theorem orderByLabelValue_ordered_series wreq :
  seriesInOrder wreq →
  ∃ wreq',
    orderByLabelValue sort_Slice TimeSeries_String wreq = Ok wreq' ∧
    rearrangedByString TimeSeries_String wreq wreq'.
Proof.
  intros Hall. unfold orderByLabelValue.
  rewrite (sortEachSeries_in_order wreq Hall).
  eexists. split; [done|]. apply Hsort.
Qed.

(** [orderByLabelValueForEach] on such requests returns them one for one, in
    their order, each with its series rearranged by [String]. *)
Theorem orderByLabelValueForEach_ordered_series reqL :
  Forall seriesInOrder reqL →
  ∃ reqL',
    orderByLabelValueForEach sort_Slice TimeSeries_String reqL = Ok reqL' ∧
    Forall2 (rearrangedByString TimeSeries_String) reqL reqL'.
Proof.
  induction 1 as [|wreq reqL Hreq Hall (reqL' & IH & Hre)]; simpl.
  - exists []. split; [done|constructor].
  - unfold orderByLabelValue. rewrite (sortEachSeries_in_order wreq Hreq).
    fold (orderByLabelValue sort_Slice TimeSeries_String).
    rewrite IH. eexists. split; [done|].
    constructor; [|done]. apply Hsort.
Qed.

(** A series with two labels whose values are out of order loses its first
    label and sample: the write-back copies the second label over the first
    and then reads the first again through its pointer. *)
Theorem sortSeries_two_labels_out_of_order a b sa sb rest :
  String.ltb (label_Value b) (label_Value a) = true →
  sortSeries sort_Slice (mk_TimeSeries [a; b] (sa :: sb :: rest))
  = Ok (mk_TimeSeries [b; b] (sb :: sb :: rest)).
Proof.
  intros Hlt. rewrite sortSeries_cases.
  rewrite decide_True by (unfold hasSamples; simpl; lia).
  simpl.
  match goal with |- context [sort_Slice _ ?key ?l] =>
    destruct (Hsort _ key l) as [Hperm Hsorted];
    destruct (Permutation_length_2_inv (Permutation_sym Hperm)) as [Heq|Heq];
    rewrite Heq in *
  end.
  - exfalso. apply Sorted_inv in Hsorted as [_ Hhd].
    apply HdRel_inv in Hhd. unfold derefLabel in Hhd. simpl in Hhd. congruence.
  - reflexivity.
Qed.

(** Whatever [sort.Slice] does, the loop body keeps the shape of a series:
    as many labels and samples as before, every label and sample one that
    the series had, and the samples past the last label left alone. *)
Theorem sortSeries_shape ts ts' :
  sortSeries sort_Slice ts = Ok ts' →
  length (Labels ts') = length (Labels ts) ∧
  length (Samples ts') = length (Samples ts) ∧
  (∀ x, x ∈ Labels ts' → x ∈ Labels ts) ∧
  (∀ y, y ∈ Samples ts' → y ∈ Samples ts) ∧
  (∀ j, (length (Labels ts) ≤ j)%nat → Samples ts' !! j = Samples ts !! j).
Proof.
  rewrite sortSeries_cases.
  destruct (decide (hasSamples ts)) as [Hhas|]; [|discriminate].
  intros [= <-].
  match goal with |- context [sort_Slice _ ?key ?l] =>
    destruct (Hsort _ key l) as [Hperm _]; set (sorted := sort_Slice _ key l) in *
  end.
  assert (Forall (validMessage ts) sorted) as Hvalid.
  { rewrite Hperm. apply Forall_forall.
    intros m (i & -> & Hi%elem_of_seq)%list_elem_of_fmap.
    unfold validMessage, hasSamples in *. simpl. lia. }
  assert (length sorted = length (Labels ts)) as Hlen.
  { rewrite Hperm. by rewrite length_fmap, length_seq. }
  destruct (writeBack_lengths sorted 0 ts) as [Hl Hs].
  destruct (writeBack_elements sorted 0 ts Hvalid) as [Hel Hes].
  split_and!; try done.
  intros j Hj. apply writeBack_outside. right. lia.
Qed.

End WalTestOrder.

(** * The further properties at sample inputs *)

Lemma build_early_failure_witness :
  build ex_world_noencoding (ex_builder (ex_plainFactory true) (Some ex_file))
    (ex_store ex_attrs)
  = (Err (errorString "unsupported encoding"), ex_store ex_attrs).
Proof.
  apply (build_early_failure ex_world_noencoding).
  right. split; [by eexists|reflexivity].
Defined.

Lemma build_pipeline_failure_state_witness :
  build ex_world_nopipeline (ex_builder ex_headerFactory (Some ex_file))
    (ex_store ex_attrs)
  = (Err (errorWrap "failed to build pipeline: " (errorString "unsupported type")),
     with_trace (ex_store ex_attrs)
       [EvPipelineBuild (headerPipelineConfig ex_headerFactory ex_headerSettings)]).
Proof.
  exact (build_pipeline_failure_state ex_world_nopipeline
           (ex_builder ex_headerFactory (Some ex_file)) (ex_store ex_attrs)
           ex_headerSettings ex_lineSplit "utf-8" eq_refl eq_refl eq_refl eq_refl).
Defined.

Lemma build_effects_in_order_witness :
  ∃ r s',
    build ex_world_unresolved (ex_builder ex_headerFactory (Some ex_file))
      (ex_store ex_attrs) = (Ok r, s') ∧
    trace s' =
      [ EvPipelineBuild (headerPipelineConfig ex_headerFactory ex_headerSettings);
        EvPipelineStart
          {| pipelineConfig :=
               headerPipelineConfig ex_headerFactory ex_headerSettings |};
        EvErrorf [("component", "fileconsumer")] "resolve symlinks: %w"
          (errorString "too many links");
        EvErrorf [("component", "fileconsumer")] "resolve abs: %w"
          (errorString "getwd failed");
        EvReadAt "logs/app.log" 4 ].
Proof.
  eexists _, _. split; [vm_compute; reflexivity|].
  eapply (build_effects_in_order ex_world_unresolved
            (ex_builder ex_headerFactory (Some ex_file)) ex_file
            (ex_store ex_attrs)); [reflexivity|].
  vm_compute. reflexivity.
Defined.


Lemma build_attribute_frame_witness :
  ∃ r s',
    build ex_world (ex_builder (ex_plainFactory true) (Some ex_file))
      (ex_store ∅) = (Ok r, s') ∧
    FileAttributes r = Some 1%positive ∧
    maps s' !! 1%positive = Some ex_attrs ∧
    (∀ l, l ≠ 1%positive → maps s' !! l = maps (ex_store ∅) !! l).
Proof.
  eexists _, _. split; [vm_compute; reflexivity|].
  opose proof* (build_attribute_frame ex_world
               (ex_builder (ex_plainFactory true) (Some ex_file)) (ex_store ∅))
    as (H1 & H2 & _ & H4); [vm_compute; reflexivity|].
  split; [exact H1|]. split; [exact (H4 ex_file 1%positive ∅ eq_refl eq_refl eq_refl)|].
  intros l Hl. apply H2. intros [= Heq]. by apply Hl.
Defined.


Lemma build_supplied_split_func_witness :
  build ex_world
    (builderWithSplitter (ex_builder_split (ex_plainFactory true) (Some ex_file))
       ex_failingSplitter) (ex_store ex_attrs)
  = build ex_world (ex_builder_split (ex_plainFactory true) (Some ex_file))
      (ex_store ex_attrs) ∧
  ∃ r s',
    build ex_world (ex_builder_split (ex_plainFactory true) (Some ex_file))
      (ex_store ex_attrs) = (Ok r, s') ∧
    lineSplitFunc r = ex_headerSplit.
Proof.
  opose proof* (build_supplied_split_func ex_world
               (ex_builder_split (ex_plainFactory true) (Some ex_file))
               ex_failingSplitter _ (ex_store ex_attrs) _) as [H1 H2];
    [reflexivity|].
  split; [exact H1|]. eexists _, _. split; [vm_compute; reflexivity|].
  eapply H2. vm_compute. reflexivity.
Defined.

Lemma build_on_windows_ignores_EvalSymlinks_witness :
  build (worldWithEvalSymlinks ex_world_windows (λ p, (p, None)))
    (ex_builder (ex_plainFactory true) (Some ex_file)) (ex_store ex_attrs)
  = build ex_world_windows (ex_builder (ex_plainFactory true) (Some ex_file))
      (ex_store ex_attrs).
Proof.
  apply (build_on_windows_ignores_EvalSymlinks ex_world_windows). reflexivity.
Defined.

Lemma build_nil_attribute_map_witness :
  (∃ r s',
     build ex_world
       (ex_builder_nilmap (ex_factory (ex_config false false) true None)
          (Some ex_file)) ex_empty = (Ok r, s') ∧
     FileAttributes r = None ∧ maps s' = maps ex_empty) ∧
  (∃ msg,
     (build ex_world
        (ex_builder_nilmap (ex_factory (ex_config true false) true None)
           (Some ex_file)) ex_empty).1 = Panic msg).
Proof.
  split.
  - opose proof* (build_nil_attribute_map ex_world
                 (ex_builder_nilmap (ex_factory (ex_config false false) true None)
                    (Some ex_file)) ex_file ex_empty) as [H _];
      [reflexivity | reflexivity
      | split_and!; [by eexists | by eexists | intros hs Hhs; discriminate Hhs]
      | split; [intros Hfb; discriminate Hfb
               | intros _; split; [reflexivity | vm_compute; discriminate]] |].
    apply H. by split_and!.
  - opose proof* (build_nil_attribute_map ex_world
                 (ex_builder_nilmap (ex_factory (ex_config true false) true None)
                    (Some ex_file)) ex_file ex_empty) as [_ H];
      [reflexivity | reflexivity
      | split_and!; [by eexists | by eexists | intros hs Hhs; discriminate Hhs]
      | split; [intros Hfb; discriminate Hfb
               | intros _; split; [reflexivity | vm_compute; discriminate]] |].
    apply H. intros [Hname _]. discriminate Hname.
Defined.

Lemma newReader_succeeds_witness :
  ∃ r s',
    newReader ex_world (ex_plainFactory false) (Some ex_file) None ex_empty
    = (Ok r, s').
Proof.
  apply (newReader_succeeds ex_world).
  - split_and!; [by eexists | by eexists | intros hs Hhs; discriminate Hhs].
  - intros _. reflexivity.
  - intros _. split; [reflexivity | vm_compute; discriminate].
Defined.

Lemma newReader_attributes_exact_witness :
  ∃ r s' l g,
    newReader ex_world (ex_plainFactory true) (Some ex_file) None
      (ex_store ex_attrs) = (Ok r, s') ∧
    FileAttributes r = Some l ∧
    maps (ex_store ex_attrs) !! l = None ∧
    maps s' !! l = Some g ∧
    g !! "log.file.name" = Some (anyString "app.log").
Proof.
  assert (NoDup (attributeKeys ex_world)) as Hnd
    by (apply (bool_decide_unpack (NoDup (attributeKeys ex_world)));
        vm_compute; exact I).
  opose proof* (newReader_attributes_exact ex_world (ex_plainFactory true)
               ex_file None (ex_store ex_attrs) _ _ Hnd)
    as (l & g & H1 & H2 & H3 & H4); [vm_compute; reflexivity|].
  eexists _, _, l, g. split; [vm_compute; reflexivity|].
  split; [exact H1|]. split; [exact H2|]. split; [exact H3|].
  apply H4. apply list_elem_of_here.
Defined.

Lemma copy_restarts_header_witness :
  ∃ r s',
    copy ex_world ex_headerFactory (ex_old false) (Some ex_file)
      (ex_store ex_attrs) = (Ok r, s') ∧
    HeaderFinalized r = false ∧
    headerPhase ex_world ex_headerFactory r (ex_store ex_attrs) s'.
Proof.
  eexists _, _. split; [vm_compute; reflexivity|].
  apply (copy_restarts_header ex_world ex_headerFactory (ex_old false)
           (Some ex_file) (ex_store ex_attrs) _ _ ex_headerSettings);
    [reflexivity | reflexivity | vm_compute; reflexivity].
Defined.

Lemma copy_succeeds_witness :
  ∃ r s',
    copy ex_world (ex_plainFactory false) (ex_old false)
      (Some ex_file_unreadable) (ex_store ex_attrs) = (Ok r, s').
Proof.
  apply (copy_succeeds ex_world (ex_plainFactory false) (ex_old false)
           ex_file_unreadable (ex_store ex_attrs) [x41; x0a; x42; x0a]).
  - split_and!; [by eexists | by eexists | intros hs Hhs; discriminate Hhs].
  - reflexivity.
  - intros lm [= <-]. by eexists.
  - intros _. reflexivity.
Defined.

Lemma unsafeReader_placeholder_witness :
  ∃ r s' l,
    unsafeReader ex_world ex_headerFactory ex_empty = (Ok r, s') ∧
    maps ex_empty !! l = None ∧ maps s' = <[l := ∅]> (maps ex_empty) ∧
    fingerprints s' = fingerprints ex_empty ∧
    FileAttributes r = Some l ∧ file r = None ∧ Fingerprint r = None ∧
    Offset r = 0 ∧ HeaderFinalized r = false ∧
    r_SugaredLogger r
    = With (f_SugaredLogger ex_headerFactory) "path" "uninitialized".
Proof.
  apply (unsafeReader_placeholder ex_world ex_headerFactory ex_empty).
  split_and!; [by eexists | by eexists |].
  intros hs Hhs. eexists. split; reflexivity.
Defined.

Lemma orderByLabelValue_ordered_series_witness :
  ∃ wreq',
    orderByLabelValue ex_sortSlice ex_String ex_request = Ok wreq' ∧
    rearrangedByString ex_String ex_request wreq'.
Proof.
  apply (orderByLabelValue_ordered_series ex_sortSlice ex_String
           ex_sortSlice_sortsByKey ex_request).
  repeat constructor.
Defined.

Lemma orderByLabelValueForEach_ordered_series_witness :
  ∃ reqL',
    orderByLabelValueForEach ex_sortSlice ex_String
      [ex_request; mk_WriteRequest [ex_seriesInOrder]] = Ok reqL' ∧
    Forall2 (rearrangedByString ex_String)
      [ex_request; mk_WriteRequest [ex_seriesInOrder]] reqL'.
Proof.
  apply (orderByLabelValueForEach_ordered_series ex_sortSlice ex_String
           ex_sortSlice_sortsByKey).
  repeat constructor.
Defined.

Lemma sortSeries_two_labels_out_of_order_witness :
  sortSeries ex_sortSlice ex_seriesOutOfOrder
  = Ok (mk_TimeSeries [ex_labelA; ex_labelA] [ex_sample1; ex_sample1]).
Proof.
  exact (sortSeries_two_labels_out_of_order ex_sortSlice ex_sortSlice_sortsByKey
           ex_labelB ex_labelA ex_sample2 ex_sample1 [] eq_refl).
Defined.

Lemma sortSeries_shape_witness :
  ∃ ts',
    sortSeries ex_sortSlice ex_seriesOutOfOrder = Ok ts' ∧
    length (Labels ts') = 2%nat ∧ length (Samples ts') = 2%nat ∧
    (∀ x, x ∈ Labels ts' → x ∈ Labels ex_seriesOutOfOrder) ∧
    (∀ y, y ∈ Samples ts' → y ∈ Samples ex_seriesOutOfOrder).
Proof.
  eexists. split; [vm_compute; reflexivity|].
  opose proof* (sortSeries_shape ex_sortSlice ex_sortSlice_sortsByKey
               ex_seriesOutOfOrder) as (H1 & H2 & H3 & H4 & _);
    [vm_compute; reflexivity|].
  split; [exact H1|]. split; [exact H2|]. split; [exact H3|exact H4].
Defined.
